(** * kubeswitch: the [switch] command (cmd/switcher/switch.go)

    A shallow embedding of the command wiring of the kubeconfig switcher:
    the package-level flag variables, [getVaultStore], the [RunE] closure of
    [rootCommand], the [RunE] closure of the hooks command and the two
    [init] functions that register the flags.

    Go values are modelled as follows.
    - [string] is [String.string] (a sequence of bytes); [len(s) > 0] is
      the test [nonEmpty s] on [String.length].
    - [error] is the message an error prints ([err.Error()]); a [nil]
      error is [None].
    - a function returning [(T, error)] whose error is checked first is a
      computation in the error monad [sum error] of ExtLib ([inl] is the
      failure); a function whose error is dropped or whose value may be
      [nil] together with a [nil] error keeps Go's pair.
    - the operating system (environment, home directory, files) is a record
      [OS] that is passed explicitly.
    - the Vault client library, the formatting verb [%q] and the
      configuration loader are parameters of the development. *)

From Stdlib Require Import Strings.String Strings.Ascii Strings.Byte.
From Stdlib Require Import List Bool Arith Lia Permutation.
From ExtLib Require Import Structures.Monad Structures.MonadExc.
From ExtLib Require Import Data.Monads.EitherMonad.
Import ListNotations.
Import MonadNotation.
Local Open Scope string_scope.
Local Open Scope monad_scope.

(** ** Errors and strings *)

Inductive error : Type :=
| Errorf (msg : string).

Definition Error (e : error) : string :=
  match e with Errorf m => m end.

(** The double quote character (code 34), escaped in the Go literals. *)
Definition dq : string := String "034"%char EmptyString.

(** [len(s) > 0] *)
Definition nonEmpty (s : string) : bool := Nat.ltb 0 (String.length s).

(** [strings.Contains(s, sub)], used to state what a message mentions. *)
Fixpoint Contains (s sub : string) : bool :=
  if String.prefix sub s then true
  else match s with
       | EmptyString => false
       | String _ s' => Contains s' sub
       end.

(** ** The types package *)

(** Modelled from the spec: [types.StoreKind] and its two constants are
    declared in the [types] package, which is not part of this file; the
    spec has the closed set {Filesystem, SecretStore} carried as a string
    tag, and the help text of the [--store] flag gives the two tags. *)
Definition StoreKind : Type := string.
Definition StoreKindFilesystem : StoreKind := "filesystem".
Definition StoreKindVault : StoreKind := "vault".

(** [types.KubeconfigPath], the PathSpec of the spec. *)
Record KubeconfigPath : Type := mkKubeconfigPath {
  Path : string;
  Store : StoreKind
}.

(** [types.Config], restricted to the fields this file reads. *)
Record Config : Type := mkConfig {
  KubeconfigPaths : list KubeconfigPath;
  VaultAPIAddress : string
}.

(** [&types.Config{}] *)
Definition emptyConfig : Config :=
  {| KubeconfigPaths := []; VaultAPIAddress := EmptyString |}.

(** ** The store package *)

(** [logrus.New().WithField(k, v)]: the fields attached to the entry. *)
Definition Logger : Type := list (string * string).
Definition WithField (k v : string) : Logger := [(k, v)].

(** [vaultapi.Config] and the client built from it. *)
Record vaultapi_Config : Type := mkVaultConfig {
  Address : string
}.

Record vaultapi_Client : Type := mkVaultClient {
  clientConfig : vaultapi_Config;
  clientToken : string
}.

(** [client.SetToken(v)] *)
Definition SetToken (c : vaultapi_Client) (v : string) : vaultapi_Client :=
  {| clientConfig := clientConfig c; clientToken := v |}.

Record FilesystemStore : Type := mkFilesystemStore {
  fsLogger : Logger;
  fsKubeconfigPaths : list KubeconfigPath;
  fsKubeconfigName : string
}.

Record VaultStore : Type := mkVaultStore {
  vLogger : Logger;
  vKubeconfigName : string;
  vKubeconfigPaths : list KubeconfigPath;
  vClient : vaultapi_Client
}.

(** The interface [store.KubeconfigStore] with its two implementations. *)
Inductive KubeconfigStore : Type :=
| IsFilesystemStore (s : FilesystemStore)
| IsVaultStore (s : VaultStore).

Definition GetKind (s : KubeconfigStore) : StoreKind :=
  match s with
  | IsFilesystemStore _ => StoreKindFilesystem
  | IsVaultStore _ => StoreKindVault
  end.

Definition storePaths (s : KubeconfigStore) : list KubeconfigPath :=
  match s with
  | IsFilesystemStore f => fsKubeconfigPaths f
  | IsVaultStore v => vKubeconfigPaths v
  end.

(** ** Package-level variables and the operating system *)

Record Globals : Type := mkGlobals {
  (* root command *)
  kubeconfigPath : string;
  kubeconfigName : string;
  showPreview : bool;
  (* vault store *)
  storageBackend : string;
  vaultAPIAddressFromFlag : string;
  (* hook command *)
  configPath : string;
  stateDirectory : string;
  hookName : string;
  runImmediately : bool
}.

(** What the process reads from its surroundings.
    - [Getenv k] is [os.Getenv(k)], empty when the variable is unset;
    - [UserHomeDir] is [os.UserHomeDir()];
    - [ReadFile p] is [ioutil.ReadFile(p)] with both components of Go's
      pair: the bytes ([None] is the nil slice) and the error. *)
Record OS : Type := mkOS {
  Getenv : string -> string;
  UserHomeDir : error + string;
  ReadFile : string -> option (list byte) * option error
}.

Definition vaultTokenFileName : string := ".vault-token".

(** The two messages built by [fmt.Errorf] in [getVaultStore]. *)
Definition errNoVaultAddress : error :=
  Errorf ("when using the vault kubeconfig store, the API address of the vault has to be provided either by command line argument "
          ++ dq ++ "vaultAPI" ++ dq ++ ", via environment variable "
          ++ dq ++ "VAULT_ADDR" ++ dq ++ " or via SwitchConfig file").

Definition errNoVaultToken : error :=
  Errorf ("when using the vault kubeconfig store, a vault API token must be provided.  Per default, the token file in  "
          ++ dq ++ "~.vault-token" ++ dq
          ++ " is used. The default token can be overriden via the  environment variable "
          ++ dq ++ "VAULT_TOKEN" ++ dq).

(** How the closure ends: by a [return] of an error before the core is
    reached, or by the final [return pkg.Switcher(...)], recorded with the
    arguments of the call. *)
Inductive RunE_result : Type :=
| Return (err : error)
| ReturnSwitcher (stores : list KubeconfigStore) (switchConfig : Config)
    (configPath stateDirectory : string) (showPreview : bool).

Section Switcher.

(** [vaultapi.NewClient], from the Vault client library. The library
    may look at the environment of the process on its own; the parameter
    stands for the library as it behaves in the surroundings of the
    run. *)
Variable NewClient : vaultapi_Config -> error + vaultapi_Client.

(** The verb [%q] of the fmt package on a string ([strconv.Quote]). *)
Variable quote : string -> string.

(** ** getVaultStore *)

(** Lines 101-110: the address, before the emptiness test. *)
Definition vaultAPI_of (g : Globals) (os : OS)
    (vaultAPIAddressFromSwitchConfig : string) : string :=
  let vaultAPI := vaultAPIAddressFromSwitchConfig in
  let vaultAPI :=
    if nonEmpty (vaultAPIAddressFromFlag g)
    then vaultAPIAddressFromFlag g else vaultAPI in
  let vaultAddress := Getenv os "VAULT_ADDR" in
  let vaultAPI :=
    if nonEmpty vaultAddress then vaultAddress else vaultAPI in
  vaultAPI.

(** Lines 121-132: the token, before the emptiness test. *)
Definition vaultToken_of (os : OS) (home : string) : string :=
  let vaultToken := EmptyString in
  let '(tokenBytes, _) := ReadFile os (home ++ "/" ++ vaultTokenFileName) in
  let vaultToken :=
    match tokenBytes with
    | Some b => string_of_list_byte b
    | None => vaultToken
    end in
  let vaultTokenEnv := Getenv os "VAULT_TOKEN" in
  let vaultToken :=
    if nonEmpty vaultTokenEnv then vaultTokenEnv else vaultToken in
  vaultToken.

Definition getVaultStore (g : Globals) (os : OS)
    (vaultAPIAddressFromSwitchConfig : string)
    (paths : list KubeconfigPath) : error + VaultStore :=
  let vaultAPI := vaultAPI_of g os vaultAPIAddressFromSwitchConfig in
  if negb (nonEmpty vaultAPI) then raise errNoVaultAddress else
  home <- UserHomeDir os ;;
  let vaultToken := vaultToken_of os home in
  if negb (nonEmpty vaultToken) then raise errNoVaultToken else
  let config := {| Address := vaultAPI |} in
  client <- NewClient config ;;
  let client := SetToken client vaultToken in
  ret {| vLogger := WithField "store" StoreKindVault;
         vKubeconfigName := kubeconfigName g;
         vKubeconfigPaths := paths;
         vClient := client |}.

(** ** The RunE closure of rootCommand *)

(** [config.LoadConfigFromFile], from the config package: the pointer
    ([None] is nil) and the error of Go's pair. *)
Variable LoadConfigFromFile : string -> option Config * option error.

(** Lines 51-56: the command-line entry is appended to the configured
    ones. *)
Definition appendKubeconfigPath (g : Globals) (switchConfig : Config) : Config :=
  if nonEmpty (kubeconfigPath g) then
    {| KubeconfigPaths :=
         KubeconfigPaths switchConfig
           ++ [ {| Path := kubeconfigPath g; Store := storageBackend g |} ];
       VaultAPIAddress := VaultAPIAddress switchConfig |}
  else switchConfig.

(** Lines 58-62: the variables of the loop. *)
Record LoopVars : Type := mkLoopVars {
  useVaultStore : bool;
  useFilesystemStore : bool;
  stores : list KubeconfigStore
}.

Definition loopStart : LoopVars :=
  {| useVaultStore := false; useFilesystemStore := false; stores := [] |}.

(** Lines 65-92: one iteration. [continue] gives the variables back
    unchanged, [return] is the failure of the monad. *)
Definition loopBody (g : Globals) (os : OS) (switchConfig : Config)
    (v : LoopVars) (configuredKubeconfigPath : KubeconfigPath)
    : error + LoopVars :=
  if (Store configuredKubeconfigPath =? StoreKindFilesystem)%string then
    if useFilesystemStore v then ret v else
    let s := IsFilesystemStore
               {| fsLogger := WithField "store" StoreKindFilesystem;
                  fsKubeconfigPaths := KubeconfigPaths switchConfig;
                  fsKubeconfigName := kubeconfigName g |} in
    ret {| useVaultStore := useVaultStore v;
           useFilesystemStore := true;
           stores := stores v ++ [s] |}
  else if (Store configuredKubeconfigPath =? StoreKindVault)%string then
    if useVaultStore v then ret v else
    vaultStore <- getVaultStore g os (VaultAPIAddress switchConfig)
                                (KubeconfigPaths switchConfig) ;;
    ret {| useVaultStore := true;
           useFilesystemStore := useFilesystemStore v;
           stores := stores v ++ [IsVaultStore vaultStore] |}
  else
    raise (Errorf ("unknown store " ++ quote (Store configuredKubeconfigPath))).

(** Line 64: [for _, configuredKubeconfigPath := range ...]. *)
Fixpoint rangeLoop (g : Globals) (os : OS) (switchConfig : Config)
    (v : LoopVars) (paths : list KubeconfigPath) : error + LoopVars :=
  match paths with
  | [] => ret v
  | p :: rest =>
      v' <- loopBody g os switchConfig v p ;;
      rangeLoop g os switchConfig v' rest
  end.

(** Lines 47-56: the configuration the loop and the core work on. *)
Definition resolveConfig (g : Globals) (loaded : option Config) : Config :=
  let switchConfig :=
    match loaded with
    | None => emptyConfig
    | Some c => c
    end in
  appendKubeconfigPath g switchConfig.

Definition rootCommand_RunE (g : Globals) (os : OS) : RunE_result :=
  let '(loaded, err) := LoadConfigFromFile (configPath g) in
  match err with
  | Some e => Return (Errorf ("failed to read switch config file: " ++ Error e))
  | None =>
      let switchConfig := resolveConfig g loaded in
      match rangeLoop g os switchConfig loopStart (KubeconfigPaths switchConfig) with
      | inl e => Return e
      | inr v =>
          ReturnSwitcher (stores v) switchConfig
                         (configPath g) (stateDirectory g) (showPreview g)
      end
  end.

End Switcher.

(** ** The hooks command and the flags *)

(** The call [hooks.Hooks(log, configPath, stateDirectory, hookName,
    runImmediately)] that ends the RunE closure of the hooks command. *)
Record HooksCall : Type := mkHooksCall {
  hLog : Logger;
  hConfigPath : string;
  hStateDirectory : string;
  hHookName : string;
  hRunImmediately : bool
}.

Definition hookCmd_RunE (g : Globals) : HooksCall :=
  let log := WithField "hook" (hookName g) in
  {| hLog := log;
     hConfigPath := configPath g;
     hStateDirectory := stateDirectory g;
     hHookName := hookName g;
     hRunImmediately := runImmediately g |}.

(** A flag is bound to a package-level variable by a pointer; the pointer
    is modelled by the assignment through it. *)
Inductive FlagValue : Type :=
| stringValue (assign : string -> Globals -> Globals)
| boolValue (assign : bool -> Globals -> Globals).

Record Flag : Type := mkFlag {
  Name : string;
  Value : FlagValue;
  Usage : string
}.

Definition FlagSet : Type := list Flag.

(** The pointers taken in the two [init] functions. *)
Definition p_kubeconfigPath (x : string) (g : Globals) : Globals :=
  mkGlobals x (kubeconfigName g) (showPreview g) (storageBackend g)
    (vaultAPIAddressFromFlag g) (configPath g) (stateDirectory g)
    (hookName g) (runImmediately g).
Definition p_kubeconfigName (x : string) (g : Globals) : Globals :=
  mkGlobals (kubeconfigPath g) x (showPreview g) (storageBackend g)
    (vaultAPIAddressFromFlag g) (configPath g) (stateDirectory g)
    (hookName g) (runImmediately g).
Definition p_showPreview (x : bool) (g : Globals) : Globals :=
  mkGlobals (kubeconfigPath g) (kubeconfigName g) x (storageBackend g)
    (vaultAPIAddressFromFlag g) (configPath g) (stateDirectory g)
    (hookName g) (runImmediately g).
Definition p_storageBackend (x : string) (g : Globals) : Globals :=
  mkGlobals (kubeconfigPath g) (kubeconfigName g) (showPreview g) x
    (vaultAPIAddressFromFlag g) (configPath g) (stateDirectory g)
    (hookName g) (runImmediately g).
Definition p_vaultAPIAddressFromFlag (x : string) (g : Globals) : Globals :=
  mkGlobals (kubeconfigPath g) (kubeconfigName g) (showPreview g)
    (storageBackend g) x (configPath g) (stateDirectory g)
    (hookName g) (runImmediately g).
Definition p_configPath (x : string) (g : Globals) : Globals :=
  mkGlobals (kubeconfigPath g) (kubeconfigName g) (showPreview g)
    (storageBackend g) (vaultAPIAddressFromFlag g) x (stateDirectory g)
    (hookName g) (runImmediately g).
Definition p_stateDirectory (x : string) (g : Globals) : Globals :=
  mkGlobals (kubeconfigPath g) (kubeconfigName g) (showPreview g)
    (storageBackend g) (vaultAPIAddressFromFlag g) (configPath g) x
    (hookName g) (runImmediately g).
Definition p_hookName (x : string) (g : Globals) : Globals :=
  mkGlobals (kubeconfigPath g) (kubeconfigName g) (showPreview g)
    (storageBackend g) (vaultAPIAddressFromFlag g) (configPath g)
    (stateDirectory g) x (runImmediately g).
Definition p_runImmediately (x : bool) (g : Globals) : Globals :=
  mkGlobals (kubeconfigPath g) (kubeconfigName g) (showPreview g)
    (storageBackend g) (vaultAPIAddressFromFlag g) (configPath g)
    (stateDirectory g) (hookName g) x.

(** The package-level variables and the flag sets of the two commands. *)
Record Package : Type := mkPackage {
  vars : Globals;
  rootFlags : FlagSet;
  hookFlags : FlagSet
}.

(** Go's zero values, before any [init] has run. *)
Definition zeroGlobals : Globals :=
  mkGlobals EmptyString EmptyString false EmptyString EmptyString
            EmptyString EmptyString EmptyString false.

Definition zeroPackage : Package :=
  {| vars := zeroGlobals; rootFlags := []; hookFlags := [] |}.

(** [fs.StringVar(p, name, value, usage)] and [fs.BoolVar(p, name, value,
    usage)]: the default is stored through the pointer and the flag is
    added to the set. *)
Definition StringVar (p : string -> Globals -> Globals)
    (name value usage : string) (st : FlagSet * Globals) : FlagSet * Globals :=
  ((fst st ++ [mkFlag name (stringValue p) usage])%list, p value (snd st)).

Definition BoolVar (p : bool -> Globals -> Globals)
    (name : string) (value : bool) (usage : string)
    (st : FlagSet * Globals) : FlagSet * Globals :=
  ((fst st ++ [mkFlag name (boolValue p) usage])%list, p value (snd st)).

(** [os.ExpandEnv] on a text of the shape [$HOME<rest>]. *)
Definition ExpandEnv_HOME (os : OS) (rest : string) : string :=
  Getenv os "HOME" ++ rest.

(** The first [init]: the flags of the hooks command (lines 174-196). *)
Definition init (os : OS) (pk : Package) : Package :=
  let st := (hookFlags pk, vars pk) in
  let st := StringVar p_configPath "config-path"
              (ExpandEnv_HOME os "/.kube/switch-config.yaml")
              "path on the local filesystem to the configuration file." st in
  let st := StringVar p_stateDirectory "state-directory"
              (ExpandEnv_HOME os "/.kube/switch-state")
              "path to the state directory." st in
  let st := StringVar p_hookName "hook-name" EmptyString
              "the name of the hook that should be run." st in
  let st := BoolVar p_runImmediately "run-immediately" true
              "run hooks right away. Do not respect the hooks execution configuration." st in
  {| vars := snd st; rootFlags := rootFlags pk; hookFlags := fst st |}.

(** The second [init]: the flags of the root command (lines 207-241). *)
Definition init' (os : OS) (pk : Package) : Package :=
  let st := (rootFlags pk, vars pk) in
  let st := StringVar p_kubeconfigPath "kubeconfig-path"
              (ExpandEnv_HOME os "/.kube/config")
              "path to be recursively searched for kubeconfig files.  Can be a file or a directory on the local filesystem or a path in Vault." st in
  let st := StringVar p_storageBackend "store" "filesystem"
              ("the backing store to be searched for kubeconfig files. Can be either "
               ++ dq ++ "filesystem" ++ dq ++ " or " ++ dq ++ "vault" ++ dq) st in
  let st := StringVar p_kubeconfigName "kubeconfig-name" "config"
              "only shows kubeconfig files with this name. Accepts wilcard arguments '*' and '?'. Defaults to 'config'." st in
  let st := BoolVar p_showPreview "show-preview" true
              "show preview of the selected kubeconfig. Possibly makes sense to disable when using vault as the kubeconfig store to prevent excessive requests against the API." st in
  let st := StringVar p_vaultAPIAddressFromFlag "vault-api-address" EmptyString
              ("the API address of the Vault store. Overrides the default "
               ++ dq ++ "vaultAPIAddress" ++ dq
               ++ " field in the SwitchConfig. This flag is overridden by the environment variable "
               ++ dq ++ "VAULT_ADDR" ++ dq ++ ".") st in
  let st := StringVar p_stateDirectory "state-directory"
              (ExpandEnv_HOME os "/.kube/switch-state")
              "path to the local directory used for storing internal state." st in
  let st := StringVar p_configPath "config-path"
              (ExpandEnv_HOME os "/.kube/switch-config.yaml")
              "path on the local filesystem to the configuration file." st in
  {| vars := snd st; rootFlags := fst st; hookFlags := hookFlags pk |}.

(** The package once both [init] functions have run, in source order. *)
Definition initialised (os : OS) : Package := init' os (init os zeroPackage).

(** [strconv.ParseBool] *)
Definition ParseBool (s : string) : option bool :=
  if existsb (String.eqb s) ["1"; "t"; "T"; "TRUE"; "true"; "True"] then Some true
  else if existsb (String.eqb s) ["0"; "f"; "F"; "FALSE"; "false"; "False"] then Some false
  else None.

(** A flag given on the command line: its name and the value given with
    it, if there is one. *)
Definition Arg : Type := (string * option string)%type.

Definition Lookup (fs : FlagSet) (name : string) : option Flag :=
  find (fun f => (Name f =? name)%string) fs.

(** Setting one flag that was given on the command line. A boolean flag
    without a value is set to true. *)
Definition Set_ (fs : FlagSet) (a : Arg) (g : Globals) : error + Globals :=
  match Lookup fs (fst a) with
  | None => inl (Errorf ("unknown flag: --" ++ fst a))
  | Some f =>
      match Value f, snd a with
      | stringValue p, Some x => inr (p x g)
      | stringValue _, None =>
          inl (Errorf ("flag needs an argument: --" ++ fst a))
      | boolValue p, None => inr (p true g)
      | boolValue p, Some x =>
          match ParseBool x with
          | Some b => inr (p b g)
          | None => inl (Errorf ("invalid argument for --" ++ fst a))
          end
      end
  end.

(** [fs.Parse(args)]: the given flags are set from left to right, the
    others keep what their variables hold. *)
Fixpoint Parse (fs : FlagSet) (args : list Arg) (g : Globals) : error + Globals :=
  match args with
  | [] => inr g
  | a :: rest =>
      match Set_ fs a g with
      | inl e => inl e
      | inr g' => Parse fs rest g'
      end
  end.

(** Running [switch hooks <args>]: the flags of the hooks command are
    parsed, then its RunE closure runs. The flag [--help] that cobra adds
    to every command when it executes is left out. *)
Definition runHooks (os : OS) (args : list Arg) : error + HooksCall :=
  let pk := initialised os in
  match Parse (hookFlags pk) args (vars pk) with
  | inl e => inl e
  | inr g => inr (hookCmd_RunE g)
  end.


(** ** Notions used to state the properties *)

(** The address: the environment variable overrides the flag, the flag
    overrides the configuration file. *)
Definition addressByPrecedence (env flag file : string) : string :=
  if nonEmpty env then env
  else if nonEmpty flag then flag
  else file.

(** The token: the environment variable overrides the token file; a file
    that gave no bytes counts as empty. *)
Definition tokenByPrecedence (env : string) (file : option (list byte)) : string :=
  if nonEmpty env then env
  else match file with
       | Some content => string_of_list_byte content
       | None => EmptyString
       end.

(** The store [getVaultStore] returns at line 147. *)
Definition builtVaultStore (g : Globals) (paths : list KubeconfigPath)
    (client : vaultapi_Client) (token : string) : VaultStore :=
  {| vLogger := WithField "store" StoreKindVault;
     vKubeconfigName := kubeconfigName g;
     vKubeconfigPaths := paths;
     vClient := SetToken client token |}.

(** The store built at line 73. *)
Definition builtFilesystemStore (g : Globals) (switchConfig : Config) : FilesystemStore :=
  {| fsLogger := WithField "store" StoreKindFilesystem;
     fsKubeconfigPaths := KubeconfigPaths switchConfig;
     fsKubeconfigName := kubeconfigName g |}.

(** The error of line 89. *)
Definition errUnknownStore (quote : string -> string) (k : StoreKind) : error :=
  Errorf ("unknown store " ++ quote k).

Definition isFilesystemKind (k : StoreKind) : bool := (k =? StoreKindFilesystem)%string.
Definition isVaultKind (k : StoreKind) : bool := (k =? StoreKindVault)%string.
Definition isKnownKind (k : StoreKind) : bool := isFilesystemKind k || isVaultKind k.

Definition isFilesystemStore (s : KubeconfigStore) : bool :=
  match s with IsFilesystemStore _ => true | IsVaultStore _ => false end.
Definition isVaultStore (s : KubeconfigStore) : bool :=
  match s with IsFilesystemStore _ => false | IsVaultStore _ => true end.

(** The kinds of a list in the order of their first occurrence: a kind is
    kept where it stands first and struck out further right. *)
Fixpoint firstKinds (ks : list StoreKind) : list StoreKind :=
  match ks with
  | [] => []
  | k :: rest => k :: filter (fun k' => negb (k' =? k)%string) (firstKinds rest)
  end.

(** The number of distinct kinds of a list. *)
Definition distinctKinds (ks : list StoreKind) : nat :=
  length (nodup string_dec ks).

(** The entries a loaded configuration file brings. *)
Definition configuredPaths (loaded : option Config) : list KubeconfigPath :=
  match loaded with
  | Some c => KubeconfigPaths c
  | None => []
  end.

(** The entry made of [--kubeconfig-path] and [--store]. *)
Definition overridePath (g : Globals) : KubeconfigPath :=
  {| Path := kubeconfigPath g; Store := storageBackend g |}.

(** The variables of the loop after lines 72-77 and 92, and after lines
    82-87 and 92. *)
Definition appendFilesystemStore (g : Globals) (switchConfig : Config)
    (v : LoopVars) : LoopVars :=
  {| useVaultStore := useVaultStore v;
     useFilesystemStore := true;
     stores := stores v ++ [IsFilesystemStore (builtFilesystemStore g switchConfig)] |}.

Definition appendVaultStore (v : LoopVars) (vs : VaultStore) : LoopVars :=
  {| useVaultStore := true;
     useFilesystemStore := useFilesystemStore v;
     stores := stores v ++ [IsVaultStore vs] |}.

(** Membership of a kind in a list of kinds. *)
Definition memKind (k : StoreKind) (ks : list StoreKind) : bool :=
  existsb (String.eqb k) ks.

(** The kinds of the stores built so far. *)
Definition kindsOf (ss : list KubeconfigStore) : list StoreKind :=
  map GetKind ss.

(** What the two flags of the loop stand for: a flag is up exactly when
    a store of its kind is in the list. *)
Definition loopInv (v : LoopVars) : Prop :=
  useFilesystemStore v = memKind StoreKindFilesystem (kindsOf (stores v)) /\
  useVaultStore v = memKind StoreKindVault (kindsOf (stores v)).

(** A store as the loop of the RunE closure builds it: the filesystem
    store of line 73, or the store [getVaultStore] returned. *)
Definition builtByLoop (NewClient : vaultapi_Config -> error + vaultapi_Client)
    (g : Globals) (os : OS) (switchConfig : Config) (s : KubeconfigStore) : Prop :=
  s = IsFilesystemStore (builtFilesystemStore g switchConfig) \/
  exists vs,
    getVaultStore NewClient g os (VaultAPIAddress switchConfig)
                  (KubeconfigPaths switchConfig) = inr vs /\
    s = IsVaultStore vs.

(** An entry whose kind the loop does not know. *)
Definition unknownEntry (p : KubeconfigPath) : bool := negb (isKnownKind (Store p)).
Definition vaultEntry (p : KubeconfigPath) : bool := isVaultKind (Store p).
Definition filesystemEntry (p : KubeconfigPath) : bool := isFilesystemKind (Store p).

(** Each store holds only the entries of its own kind. *)
Definition ownsOnlyOwnKind (r : RunE_result) : Prop :=
  match r with
  | Return _ => True
  | ReturnSwitcher stores switchConfig _ _ _ =>
      forall s, In s stores ->
        storePaths s
        = filter (fun p => (Store p =? GetKind s)%string) (KubeconfigPaths switchConfig)
  end.

(** The flag's address comes first: whenever the flag is not empty, the
    client of the store is built with the flag's address. *)
Definition flagAddressFirst
    (NewClient : vaultapi_Config -> error + vaultapi_Client)
    (g : Globals) (os : OS) (file : string) (paths : list KubeconfigPath) : Prop :=
  vaultAPIAddressFromFlag g <> EmptyString ->
  forall vs, getVaultStore NewClient g os file paths = inr vs ->
    exists client token,
      NewClient {| Address := vaultAPIAddressFromFlag g |} = inr client /\
      vClient vs = SetToken client token.

(** An entry of an unknown kind makes the command return the error that
    names the unknown store. *)
Definition unknownStoreNamed (quote : string -> string)
    (paths : list KubeconfigPath) (r : RunE_result) : Prop :=
  existsb unknownEntry paths = true ->
  exists p, In p paths /\ unknownEntry p = true /\
            r = Return (errUnknownStore quote (Store p)).

(** A Vault entry without any address makes the command return an error
    whose message names the three sources of the address. *)
Definition addressSourcesNamed (g : Globals) (os : OS) (switchConfig : Config)
    (r : RunE_result) : Prop :=
  existsb vaultEntry (KubeconfigPaths switchConfig) = true ->
  vaultAPI_of g os (VaultAPIAddress switchConfig) = EmptyString ->
  exists e, r = Return e /\
            Contains (Error e) "command line argument" = true /\
            Contains (Error e) "VAULT_ADDR" = true /\
            Contains (Error e) "SwitchConfig file" = true.

(** ** Concrete surroundings, for running the model *)

Module Example.

(** [%q] on a text made of printable ASCII without quote or backslash. *)
Definition quote (s : string) : string := dq ++ s ++ dq.

(** A client library that accepts every configuration. *)
Definition NewClient (c : vaultapi_Config) : error + vaultapi_Client :=
  inr {| clientConfig := c; clientToken := EmptyString |}.

Fixpoint assoc {A : Type} (k : string) (l : list (string * A)) : option A :=
  match l with
  | [] => None
  | (k', a) :: rest => if (k =? k')%string then Some a else assoc k rest
  end.

(** An operating system given by its environment, the home directory and
    the files that can be read; any other file fails to open. *)
Definition os (env : list (string * string)) (home : string)
    (files : list (string * list byte)) : OS :=
  {| Getenv := fun k => match assoc k env with Some v => v | None => EmptyString end;
     UserHomeDir := inr home;
     ReadFile := fun p =>
       match assoc p files with
       | Some b => (Some b, None)
       | None => (None, Some (Errorf ("open " ++ p ++ ": no such file or directory")))
       end |}.

(** A configuration file that loads to the given configuration. *)
Definition load (c : Config) (path : string) : option Config * option error :=
  (Some c, None).

Definition tokenFile : string * list byte :=
  ("/home/op/.vault-token", list_byte_of_string "s.filetoken").

(** The variables as [switch] leaves them when no kubeconfig path is
    given on the command line. *)
Definition globals (flagAddress : string) : Globals :=
  {| kubeconfigPath := EmptyString;
     kubeconfigName := "config";
     showPreview := true;
     storageBackend := "filesystem";
     vaultAPIAddressFromFlag := flagAddress;
     configPath := "/home/op/.kube/switch-config.yaml";
     stateDirectory := "/home/op/.kube/switch-state";
     hookName := EmptyString;
     runImmediately := true |}.

Definition fsPath (p : string) : KubeconfigPath :=
  {| Path := p; Store := StoreKindFilesystem |}.
Definition vaultPath (p : string) : KubeconfigPath :=
  {| Path := p; Store := StoreKindVault |}.
Definition s3Path (p : string) : KubeconfigPath :=
  {| Path := p; Store := "s3" |}.

Definition mixed : Config :=
  {| KubeconfigPaths :=
       [vaultPath "landscapes/dev"; fsPath "/home/op/.kube"; vaultPath "landscapes/prod";
        fsPath "/etc/kube"];
     VaultAPIAddress := "https://vault.file" |}.

(** An operator with a token file and nothing in the environment. *)
Definition osTokenFile : OS := os [] "/home/op" [tokenFile].

(** The stores the switch command builds from [mixed]. *)
Definition mixedVaultStore : VaultStore :=
  {| vLogger := [("store", "vault")];
     vKubeconfigName := "config";
     vKubeconfigPaths := KubeconfigPaths mixed;
     vClient := {| clientConfig := {| Address := "https://vault.file" |};
                   clientToken := "s.filetoken" |} |}.

Definition mixedFilesystemStore : FilesystemStore :=
  {| fsLogger := [("store", "filesystem")];
     fsKubeconfigPaths := KubeconfigPaths mixed;
     fsKubeconfigName := "config" |}.

Definition mixedStores : list KubeconfigStore :=
  [IsVaultStore mixedVaultStore; IsFilesystemStore mixedFilesystemStore].

Definition mixedRun : RunE_result :=
  ReturnSwitcher mixedStores mixed
    "/home/op/.kube/switch-config.yaml" "/home/op/.kube/switch-state" true.

(** An operator without a token file and with nothing in the
    environment. *)
Definition osBare : OS := os [] "/home/op" [].

(** An operator with both Vault variables set and a token file. *)
Definition osVaultEnv : OS :=
  os [("VAULT_ADDR", "https://vault.env"); ("VAULT_TOKEN", "s.envtoken")]
     "/home/op" [tokenFile].

(** The variables when [--vault-api-address] is given. *)
Definition globalsFlag : Globals := globals "https://vault.flag".

(** The variables when [--kubeconfig-path] and [--store] are given. *)
Definition globalsOverride : Globals :=
  {| kubeconfigPath := "landscapes/canary";
     kubeconfigName := "config";
     showPreview := true;
     storageBackend := "vault";
     vaultAPIAddressFromFlag := EmptyString;
     configPath := "/home/op/.kube/switch-config.yaml";
     stateDirectory := "/home/op/.kube/switch-state";
     hookName := EmptyString;
     runImmediately := true |}.

(** The client built from the environment's address and token. *)
Definition envClient : vaultapi_Client :=
  {| clientConfig := {| Address := "https://vault.env" |};
     clientToken := "s.envtoken" |}.

Definition envVaultStore : VaultStore :=
  {| vLogger := [("store", "vault")];
     vKubeconfigName := "config";
     vKubeconfigPaths := [];
     vClient := envClient |}.

(** Configurations without an address for Vault. *)
Definition vaultThenS3 : Config :=
  {| KubeconfigPaths := [vaultPath "landscapes/dev"; s3Path "bucket"];
     VaultAPIAddress := EmptyString |}.

Definition s3ThenVault : Config :=
  {| KubeconfigPaths := [s3Path "bucket"; vaultPath "landscapes/dev"];
     VaultAPIAddress := EmptyString |}.

Definition fsThenS3 : Config :=
  {| KubeconfigPaths := [fsPath "/home/op/.kube"; s3Path "bucket"];
     VaultAPIAddress := EmptyString |}.

Definition fsThenVault : Config :=
  {| KubeconfigPaths := [fsPath "/home/op/.kube"; vaultPath "landscapes/dev"];
     VaultAPIAddress := EmptyString |}.

Definition onlyFs : Config :=
  {| KubeconfigPaths := [fsPath "/home/op/.kube"];
     VaultAPIAddress := "https://vault.file" |}.

(** The surroundings of the hooks command. *)
Definition osHome : OS := os [("HOME", "/home/op")] "/home/op" [].

(** The run of [switch --kubeconfig-path landscapes/canary --store vault]
    over the configuration [onlyFs]. *)
Definition overrideConfig : Config :=
  {| KubeconfigPaths := [fsPath "/home/op/.kube"; vaultPath "landscapes/canary"];
     VaultAPIAddress := "https://vault.file" |}.

Definition overrideStores : list KubeconfigStore :=
  [IsFilesystemStore
     {| fsLogger := [("store", "filesystem")];
        fsKubeconfigPaths := KubeconfigPaths overrideConfig;
        fsKubeconfigName := "config" |};
   IsVaultStore
     {| vLogger := [("store", "vault")];
        vKubeconfigName := "config";
        vKubeconfigPaths := KubeconfigPaths overrideConfig;
        vClient := {| clientConfig := {| Address := "https://vault.file" |};
                      clientToken := "s.filetoken" |} |}].

End Example.

(** ** The loop with the calls of getVaultStore counted *)

Section Counted.

Variable NewClient : vaultapi_Config -> error + vaultapi_Client.
Variable quote : string -> string.
Variable LoadConfigFromFile : string -> option Config * option error.

(** One iteration of lines 65-92, paired with the number of times it
    calls [getVaultStore] (line 83). *)
Definition loopBodyCounted (g : Globals) (os : OS) (switchConfig : Config)
    (v : LoopVars) (configuredKubeconfigPath : KubeconfigPath)
    : nat * (error + LoopVars) :=
  if (Store configuredKubeconfigPath =? StoreKindFilesystem)%string then
    if useFilesystemStore v then (0, inr v) else
    let s := IsFilesystemStore
               {| fsLogger := WithField "store" StoreKindFilesystem;
                  fsKubeconfigPaths := KubeconfigPaths switchConfig;
                  fsKubeconfigName := kubeconfigName g |} in
    (0, inr {| useVaultStore := useVaultStore v;
               useFilesystemStore := true;
               stores := stores v ++ [s] |})
  else if (Store configuredKubeconfigPath =? StoreKindVault)%string then
    if useVaultStore v then (0, inr v) else
    (1, match getVaultStore NewClient g os (VaultAPIAddress switchConfig)
                            (KubeconfigPaths switchConfig) with
        | inl err => inl err
        | inr vaultStore =>
            inr {| useVaultStore := true;
                   useFilesystemStore := useFilesystemStore v;
                   stores := stores v ++ [IsVaultStore vaultStore] |}
        end)
  else
    (0, inl (Errorf ("unknown store " ++ quote (Store configuredKubeconfigPath)))).

Fixpoint rangeLoopCounted (g : Globals) (os : OS) (switchConfig : Config)
    (v : LoopVars) (paths : list KubeconfigPath) : nat * (error + LoopVars) :=
  match paths with
  | [] => (0, inr v)
  | p :: rest =>
      match loopBodyCounted g os switchConfig v p with
      | (n, inl e) => (n, inl e)
      | (n, inr v') =>
          let '(m, r) := rangeLoopCounted g os switchConfig v' rest in
          (n + m, r)
      end
  end.

(** The number of calls of [getVaultStore] in one run of the closure. *)
Definition rootCommand_RunE_calls (g : Globals) (os : OS) : nat :=
  let '(loaded, err) := LoadConfigFromFile (configPath g) in
  match err with
  | Some _ => 0
  | None =>
      let switchConfig := resolveConfig g loaded in
      fst (rangeLoopCounted g os switchConfig loopStart (KubeconfigPaths switchConfig))
  end.

(** Running [switch <args>]: the flags of the root command are parsed,
    then its RunE closure runs. *)
Definition runSwitch (os : OS) (args : list Arg) : RunE_result :=
  let pk := initialised os in
  match Parse (rootFlags pk) args (vars pk) with
  | inl e => Return e
  | inr g => rootCommand_RunE NewClient quote LoadConfigFromFile g os
  end.

End Counted.

(** ** Further notions *)

(** The name filter and the logger of a store. *)
Definition storeName (s : KubeconfigStore) : string :=
  match s with
  | IsFilesystemStore f => fsKubeconfigName f
  | IsVaultStore v => vKubeconfigName v
  end.

Definition storeLogger (s : KubeconfigStore) : Logger :=
  match s with
  | IsFilesystemStore f => fsLogger f
  | IsVaultStore v => vLogger v
  end.

(** The path of the token file under a home directory. *)
Definition tokenFilePath (home : string) : string :=
  home ++ "/" ++ vaultTokenFileName.

(** Two surroundings that agree on what [getVaultStore] looks at: the two
    Vault variables, the home directory and the bytes of the token
    file. *)
Definition sameVaultSurroundings (os os' : OS) : Prop :=
  Getenv os "VAULT_ADDR" = Getenv os' "VAULT_ADDR" /\
  Getenv os "VAULT_TOKEN" = Getenv os' "VAULT_TOKEN" /\
  UserHomeDir os = UserHomeDir os' /\
  (forall home, UserHomeDir os = inr home ->
     fst (ReadFile os (tokenFilePath home)) = fst (ReadFile os' (tokenFilePath home))).

(** The address a loaded configuration file brings. *)
Definition configuredAddress (loaded : option Config) : string :=
  match loaded with
  | Some c => VaultAPIAddress c
  | None => EmptyString
  end.

(** The text of the bytes a read of the token file returned. *)
Definition textOfBytes (bytes : option (list byte)) : string :=
  match bytes with
  | Some content => string_of_list_byte content
  | None => EmptyString
  end.

(** A token file whose read fails counts as an absent token: in a run
    that reads the file, with [VAULT_TOKEN] empty, the missing-token error
    is the result. *)
Definition failedReadIsAbsentToken
    (NewClient : vaultapi_Config -> error + vaultapi_Client)
    (g : Globals) (os : OS) (file : string) (paths : list KubeconfigPath) : Prop :=
  forall home e,
    vaultAPI_of g os file <> EmptyString ->
    UserHomeDir os = inr home ->
    snd (ReadFile os (tokenFilePath home)) = Some e ->
    Getenv os "VAULT_TOKEN" = EmptyString ->
    getVaultStore NewClient g os file paths = inl errNoVaultToken.

(** The assignment through the pointer of a flag, from the text given
    on the command line; [None] when the text is no boolean. *)
Definition assignFlag (f : Flag) (x : string) (g : Globals) : option Globals :=
  match Value f with
  | stringValue p => Some (p x g)
  | boolValue p =>
      match ParseBool x with
      | Some b => Some (p b g)
      | None => None
      end
  end.

(** A variable, seen through [get], that only the flag called [name] of
    the set can change. *)
Definition onlySetBy {T : Type} (get : Globals -> T) (name : string)
    (fs : FlagSet) : Prop :=
  forall f, In f fs -> Name f <> name ->
    match Value f with
    | stringValue p => forall x g, get (p x g) = get g
    | boolValue p => forall b g, get (p b g) = get g
    end.

(** The names of the flags of the two commands. *)
Definition hookFlagNames : list string :=
  ["config-path"; "state-directory"; "hook-name"; "run-immediately"].

Definition rootFlagNames : list string :=
  ["kubeconfig-path"; "store"; "kubeconfig-name"; "show-preview";
   "vault-api-address"; "state-directory"; "config-path"].

(** The entry the root command appends when its flags are left alone. *)
Definition defaultOverride (os : OS) : KubeconfigPath :=
  {| Path := Getenv os "HOME" ++ "/.kube/config"; Store := StoreKindFilesystem |}.

(** ** Further concrete surroundings *)

Module Scenario.

(** A client library that cannot reach the server. *)
Definition NewClientDown (c : vaultapi_Config) : error + vaultapi_Client :=
  inl (Errorf "connection refused").

(** No configuration file: the loader gives nil and no error. *)
Definition loadNothing (path : string) : option Config * option error :=
  (None, None).

(** An operator with the token file, a home directory in the
    environment and other variables and files around. *)
Definition osBusy : OS :=
  Example.os [("HOME", "/home/op"); ("KUBECONFIG", "/tmp/kubeconfig"); ("VAULT_NAMESPACE", "ops")]
             "/home/op"
             [("/etc/hostname", list_byte_of_string "box"); Example.tokenFile].

(** What [switch --kubeconfig-name=*.yaml] runs on. *)
Definition nameArgs : list Arg := [("kubeconfig-name", Some "*.yaml")].

Definition defaultConfig : Config :=
  {| KubeconfigPaths :=
       [Example.fsPath "/home/op/.kube"; Example.fsPath "/home/op/.kube/config"];
     VaultAPIAddress := "https://vault.file" |}.

Definition defaultStores : list KubeconfigStore :=
  [IsFilesystemStore
     {| fsLogger := [("store", "filesystem")];
        fsKubeconfigPaths := KubeconfigPaths defaultConfig;
        fsKubeconfigName := "*.yaml" |}].

(** What [switch hooks --hook-name=refresh] and
    [switch --show-preview=false] are given. *)
Definition hookArgs : list Arg := [("hook-name", Some "refresh")].
Definition previewArgs : list Arg := [("show-preview", Some "false")].

(** An operator whose token file starts to be read and then fails:
    the read returns the bytes it got together with its error. *)
Definition osPartialRead : OS :=
  {| Getenv := fun _ => EmptyString;
     UserHomeDir := inr "/home/op"%string;
     ReadFile := fun p =>
       (Some (list_byte_of_string "s.fil"),
        Some (Errorf ("read " ++ p ++ ": input/output error"))) |}.

(** An operator whose token file is a directory: the read opens it and
    fails without a byte. *)
Definition osTokenDirectory : OS :=
  {| Getenv := fun _ => EmptyString;
     UserHomeDir := inr "/home/op"%string;
     ReadFile := fun p =>
       (Some [], Some (Errorf ("read " ++ p ++ ": is a directory"))) |}.

(** The store built from the bytes of the failed read. *)
Definition truncatedStore : VaultStore :=
  {| vLogger := [("store", "vault")];
     vKubeconfigName := "config";
     vKubeconfigPaths := [];
     vClient := {| clientConfig := {| Address := "https://vault.file" |};
                   clientToken := "s.fil" |} |}.

(** An operator with the token file and other variables and files
    around, none of them for Vault. *)
Definition osOther : OS :=
  Example.os [("HOME", "/home/op"); ("EDITOR", "vi")]
             "/home/op"
             [("/etc/hostname", list_byte_of_string "box"); Example.tokenFile].

(** The variables of [switch --kubeconfig-path bucket --store s3]. *)
Definition globalsS3 : Globals :=
  {| kubeconfigPath := "bucket";
     kubeconfigName := "config";
     showPreview := true;
     storageBackend := "s3";
     vaultAPIAddressFromFlag := EmptyString;
     configPath := "/home/op/.kube/switch-config.yaml";
     stateDirectory := "/home/op/.kube/switch-state";
     hookName := EmptyString;
     runImmediately := true |}.

(** The store built from [Example.onlyFs] alone. *)
Definition onlyFsStores : list KubeconfigStore :=
  [IsFilesystemStore
     {| fsLogger := [("store", "filesystem")];
        fsKubeconfigPaths := KubeconfigPaths Example.onlyFs;
        fsKubeconfigName := "config" |}].

End Scenario.

(** * Properties *)

Local Open Scope list_scope.

(** ** Strings *)

Lemma nonEmpty_false (s : string) : nonEmpty s = false <-> s = EmptyString.
Proof.
  destruct s; simpl; split; intro H; try reflexivity; discriminate H.
Qed.

Lemma nonEmpty_true (s : string) : nonEmpty s = true <-> s <> EmptyString.
Proof.
  destruct s; simpl; split; intro H; try reflexivity;
    try discriminate; try (exfalso; apply H; reflexivity).
Qed.

(** ** The precedence chains *)

Lemma vaultAPI_of_precedence (g : Globals) (os : OS) (file : string) :
  vaultAPI_of g os file
  = addressByPrecedence (Getenv os "VAULT_ADDR") (vaultAPIAddressFromFlag g) file.
Proof.
  unfold vaultAPI_of, addressByPrecedence.
  destruct (nonEmpty (Getenv os "VAULT_ADDR")); reflexivity.
Qed.

Lemma vaultToken_of_precedence (os : OS) (home : string) :
  vaultToken_of os home
  = tokenByPrecedence (Getenv os "VAULT_TOKEN")
      (fst (ReadFile os (home ++ "/" ++ vaultTokenFileName)%string)).
Proof.
  unfold vaultToken_of, tokenByPrecedence.
  destruct (ReadFile os (home ++ "/" ++ vaultTokenFileName)%string) as [tokenBytes e].
  simpl. destruct (nonEmpty (Getenv os "VAULT_TOKEN")); destruct tokenBytes; reflexivity.
Qed.

Section GetVaultStore.

Variable NewClient : vaultapi_Config -> error + vaultapi_Client.

(** The five ways through [getVaultStore]. *)
Lemma getVaultStore_no_address g os file paths :
  nonEmpty (vaultAPI_of g os file) = false ->
  getVaultStore NewClient g os file paths = inl errNoVaultAddress.
Proof.
  intro H. unfold getVaultStore. rewrite H. reflexivity.
Qed.

Lemma getVaultStore_no_home g os file paths e :
  nonEmpty (vaultAPI_of g os file) = true ->
  UserHomeDir os = inl e ->
  getVaultStore NewClient g os file paths = inl e.
Proof.
  intros Ha Hh. unfold getVaultStore. rewrite Ha, Hh. reflexivity.
Qed.

Lemma getVaultStore_no_token g os file paths home :
  nonEmpty (vaultAPI_of g os file) = true ->
  UserHomeDir os = inr home ->
  nonEmpty (vaultToken_of os home) = false ->
  getVaultStore NewClient g os file paths = inl errNoVaultToken.
Proof.
  intros Ha Hh Ht. unfold getVaultStore. rewrite Ha, Hh. simpl.
  rewrite Ht. reflexivity.
Qed.

Lemma getVaultStore_no_client g os file paths home e :
  nonEmpty (vaultAPI_of g os file) = true ->
  UserHomeDir os = inr home ->
  nonEmpty (vaultToken_of os home) = true ->
  NewClient {| Address := vaultAPI_of g os file |} = inl e ->
  getVaultStore NewClient g os file paths = inl e.
Proof.
  intros Ha Hh Ht Hc. unfold getVaultStore. rewrite Ha, Hh. simpl.
  rewrite Ht. simpl. rewrite Hc. reflexivity.
Qed.

Lemma getVaultStore_success g os file paths home client :
  nonEmpty (vaultAPI_of g os file) = true ->
  UserHomeDir os = inr home ->
  nonEmpty (vaultToken_of os home) = true ->
  NewClient {| Address := vaultAPI_of g os file |} = inr client ->
  getVaultStore NewClient g os file paths
  = inr (builtVaultStore g paths client (vaultToken_of os home)).
Proof.
  intros Ha Hh Ht Hc. unfold getVaultStore. rewrite Ha, Hh. simpl.
  rewrite Ht. simpl. rewrite Hc. reflexivity.
Qed.

(** A store comes back on the last way only. *)
Lemma getVaultStore_inr g os file paths vs :
  getVaultStore NewClient g os file paths = inr vs ->
  exists home client,
    nonEmpty (vaultAPI_of g os file) = true /\
    UserHomeDir os = inr home /\
    nonEmpty (vaultToken_of os home) = true /\
    NewClient {| Address := vaultAPI_of g os file |} = inr client /\
    vs = builtVaultStore g paths client (vaultToken_of os home).
Proof.
  intro H.
  destruct (nonEmpty (vaultAPI_of g os file)) eqn:Ha.
  2:{ rewrite (getVaultStore_no_address _ _ _ _ Ha) in H. discriminate. }
  destruct (UserHomeDir os) as [e|home] eqn:Hh.
  { rewrite (getVaultStore_no_home _ _ _ _ _ Ha Hh) in H. discriminate. }
  destruct (nonEmpty (vaultToken_of os home)) eqn:Ht.
  2:{ rewrite (getVaultStore_no_token _ _ _ _ _ Ha Hh Ht) in H. discriminate. }
  destruct (NewClient {| Address := vaultAPI_of g os file |}) as [e|client] eqn:Hc.
  { rewrite (getVaultStore_no_client _ _ _ _ _ _ Ha Hh Ht Hc) in H. discriminate. }
  rewrite (getVaultStore_success _ _ _ _ _ _ Ha Hh Ht Hc) in H.
  exists home, client. injection H as <-. auto.
Qed.

(** The store always carries the paths it was given. *)
Lemma getVaultStore_paths g os file paths vs :
  getVaultStore NewClient g os file paths = inr vs ->
  vKubeconfigPaths vs = paths.
Proof.
  intro H. apply getVaultStore_inr in H.
  destruct H as (home & client & _ & _ & _ & _ & ->). reflexivity.
Qed.

End GetVaultStore.

(** ** Lists of kinds *)

Lemma filter_all_true {A : Type} (f : A -> bool) (l : list A) :
  (forall x, In x l -> f x = true) -> filter f l = l.
Proof.
  induction l as [|a l IH]; intro H; simpl; [reflexivity|].
  rewrite (H a (or_introl eq_refl)). f_equal. apply IH.
  intros x Hx. apply H. right. exact Hx.
Qed.

Lemma memKind_app k s t : memKind k (s ++ t) = memKind k s || memKind k t.
Proof. unfold memKind. apply existsb_app. Qed.

Lemma memKind_In k s : memKind k s = true <-> In k s.
Proof.
  unfold memKind. rewrite existsb_exists. split.
  - intros (x & Hx & E). apply String.eqb_eq in E. subst. exact Hx.
  - intro H. exists k. split; [exact H | apply String.eqb_refl].
Qed.

Lemma memKind_not_In k s : memKind k s = false <-> ~ In k s.
Proof.
  rewrite <- memKind_In. destruct (memKind k s); split; intro H;
    try discriminate; try reflexivity; try (intro; discriminate).
  exfalso. apply H. reflexivity.
Qed.

(** A kind met for the first time goes to the end of the kinds seen. *)
Lemma firstKinds_step_new k s l :
  memKind k s = false ->
  filter (fun x => negb (memKind x s)) (k :: filter (fun k' => negb (k' =? k)%string) l)
  = k :: filter (fun x => negb (memKind x (s ++ [k]))) l.
Proof.
  intro Hk. simpl. rewrite Hk. simpl. f_equal.
  induction l as [|a l IH]; simpl; [reflexivity|].
  rewrite memKind_app. unfold memKind at 3. simpl.
  rewrite orb_false_r.
  destruct (a =? k)%string eqn:E; simpl.
  - rewrite orb_true_r. simpl. exact IH.
  - rewrite orb_false_r. destruct (memKind a s); simpl; [exact IH|].
    f_equal. exact IH.
Qed.

(** A kind met again changes nothing. *)
Lemma firstKinds_step_seen k s l :
  memKind k s = true ->
  filter (fun x => negb (memKind x s)) (k :: filter (fun k' => negb (k' =? k)%string) l)
  = filter (fun x => negb (memKind x s)) l.
Proof.
  intro Hk. simpl. rewrite Hk. simpl.
  induction l as [|a l IH]; simpl; [reflexivity|].
  destruct (a =? k)%string eqn:E; simpl.
  - apply String.eqb_eq in E. subst a. rewrite Hk. simpl. exact IH.
  - destruct (memKind a s); simpl; [exact IH|]. f_equal. exact IH.
Qed.

Lemma firstKinds_In k l : In k (firstKinds l) <-> In k l.
Proof.
  induction l as [|a l IH]; simpl; [tauto|].
  rewrite filter_In, IH. split.
  - intros [H|[H _]]; auto.
  - intros [H|H]; [left; exact H|].
    destruct (String.eqb_spec k a) as [->|N]; [left; reflexivity|].
    right. split; [exact H | reflexivity].
Qed.

Lemma firstKinds_NoDup l : NoDup (firstKinds l).
Proof.
  induction l as [|a l IH]; simpl; constructor.
  - rewrite filter_In. intros [_ H].
    rewrite String.eqb_refl in H. discriminate.
  - apply NoDup_filter. exact IH.
Qed.

(** [firstKinds] has one entry for each distinct kind. *)
Lemma firstKinds_length l : length (firstKinds l) = distinctKinds l.
Proof.
  unfold distinctKinds. apply Permutation_length.
  apply NoDup_Permutation.
  - apply firstKinds_NoDup.
  - apply NoDup_nodup.
  - intro k. rewrite firstKinds_In, nodup_In. tauto.
Qed.

(** A kind stands once in [firstKinds] when it occurs, and not at all
    otherwise. *)
Lemma firstKinds_count k l :
  length (filter (String.eqb k) (firstKinds l)) = if memKind k l then 1 else 0.
Proof.
  destruct (memKind k l) eqn:M.
  - apply memKind_In, firstKinds_In in M.
    pose proof (firstKinds_NoDup l) as ND.
    induction (firstKinds l) as [|a r IH]; [destruct M|].
    inversion ND as [|? ? Ha NDr]; subst. simpl.
    destruct (String.eqb_spec k a) as [->|N].
    + simpl. f_equal. rewrite (proj2 (length_zero_iff_nil _)); [reflexivity|].
      destruct (filter (String.eqb a) r) as [|b t] eqn:F; [reflexivity|].
      exfalso. assert (Hb : In b (filter (String.eqb a) r)) by (rewrite F; left; reflexivity).
      apply filter_In in Hb. destruct Hb as [Hb E].
      apply String.eqb_eq in E. subst b. exact (Ha Hb).
    + apply IH; [|exact NDr]. destruct M as [M|M]; [congruence | exact M].
  - apply memKind_not_In in M. rewrite <- firstKinds_In in M.
    induction (firstKinds l) as [|a r IH]; [reflexivity|]. simpl.
    destruct (String.eqb_spec k a) as [->|N].
    + exfalso. apply M. left. reflexivity.
    + apply IH. intro H. apply M. right. exact H.
Qed.



(** ** The loop over the configured paths *)

Lemma isVaultKind_not_filesystem k :
  isVaultKind k = true -> isFilesystemKind k = false.
Proof.
  unfold isVaultKind, isFilesystemKind. intro H.
  apply String.eqb_eq in H. subst k. reflexivity.
Qed.

Lemma isFilesystemKind_eq k : isFilesystemKind k = true <-> k = StoreKindFilesystem.
Proof. apply String.eqb_eq. Qed.

Lemma isVaultKind_eq k : isVaultKind k = true <-> k = StoreKindVault.
Proof. apply String.eqb_eq. Qed.

Lemma isKnownKind_false k :
  isKnownKind k = false <-> isFilesystemKind k = false /\ isVaultKind k = false.
Proof. unfold isKnownKind. apply orb_false_iff. Qed.

Section Loop.

Variable NewClient : vaultapi_Config -> error + vaultapi_Client.
Variable quote : string -> string.
Variable g : Globals.
Variable os : OS.
Variable switchConfig : Config.

Local Abbreviation body := (loopBody NewClient quote g os switchConfig).
Local Abbreviation loop := (rangeLoop NewClient quote g os switchConfig).
Local Abbreviation vault :=
  (getVaultStore NewClient g os (VaultAPIAddress switchConfig)
                 (KubeconfigPaths switchConfig)).
Local Abbreviation withFilesystemStore := (appendFilesystemStore g switchConfig).
Local Abbreviation withVaultStore := appendVaultStore.

Lemma loopBody_unknown v p :
  isKnownKind (Store p) = false ->
  body v p = inl (errUnknownStore quote (Store p)).
Proof.
  intro H. apply isKnownKind_false in H. destruct H as [Hf Hv].
  unfold loopBody. unfold isFilesystemKind in Hf. unfold isVaultKind in Hv.
  rewrite Hf, Hv. reflexivity.
Qed.

Lemma loopBody_filesystem v p :
  isFilesystemKind (Store p) = true ->
  body v p = inr (if useFilesystemStore v then v else withFilesystemStore v).
Proof.
  intro H. unfold loopBody. unfold isFilesystemKind in H. rewrite H.
  destruct (useFilesystemStore v); reflexivity.
Qed.

Lemma loopBody_vault v p :
  isVaultKind (Store p) = true ->
  body v p = if useVaultStore v then inr v
             else match vault with
                  | inl e => inl e
                  | inr vs => inr (withVaultStore v vs)
                  end.
Proof.
  intro H. pose proof (isVaultKind_not_filesystem _ H) as Hf.
  unfold loopBody. unfold isFilesystemKind in Hf. unfold isVaultKind in H.
  rewrite Hf, H. destruct (useVaultStore v); [reflexivity|].
  destruct vault; reflexivity.
Qed.

Lemma rangeLoop_cons v p rest :
  loop v (p :: rest) = match body v p with
                       | inl e => inl e
                       | inr v' => loop v' rest
                       end.
Proof. simpl. destruct (loopBody _ _ _ _ _ v p); reflexivity. Qed.

Lemma rangeLoop_app v l1 l2 :
  loop v (l1 ++ l2) = match loop v l1 with
                      | inl e => inl e
                      | inr v' => loop v' l2
                      end.
Proof.
  revert v. induction l1 as [|p l1 IH]; intro v; [reflexivity|].
  simpl app. rewrite !rangeLoop_cons. destruct (body v p); [reflexivity | apply IH].
Qed.

(** One iteration keeps the meaning of the flags and extends the kinds of
    the stores by the kind of the entry, if it is new. *)
Lemma loopBody_step v p v' :
  loopInv v -> body v p = inr v' ->
  loopInv v' /\
  kindsOf (stores v')
  = kindsOf (stores v)
      ++ (if memKind (Store p) (kindsOf (stores v)) then [] else [Store p]).
Proof.
  intros I H. pose proof I as [If Iv].
  destruct (isFilesystemKind (Store p)) eqn:Hf.
  - rewrite (loopBody_filesystem _ _ Hf) in H. injection H as <-.
    apply isFilesystemKind_eq in Hf. rewrite Hf. rewrite <- If.
    destruct (useFilesystemStore v) eqn:U.
    + split; [exact I|]. rewrite app_nil_r. reflexivity.
    + unfold loopInv, appendFilesystemStore, kindsOf. simpl. rewrite !map_app. simpl.
      rewrite !memKind_app. fold (kindsOf (stores v)). rewrite <- If, <- Iv.
      repeat split. simpl. rewrite orb_false_r. reflexivity.
  - destruct (isVaultKind (Store p)) eqn:Hv.
    + rewrite (loopBody_vault _ _ Hv) in H.
      apply isVaultKind_eq in Hv. rewrite Hv. rewrite <- Iv.
      destruct (useVaultStore v) eqn:U.
      * injection H as <-. split; [exact I|]. rewrite app_nil_r. reflexivity.
      * destruct vault as [e|vs]; [discriminate|]. injection H as <-.
        unfold loopInv, appendVaultStore, kindsOf. simpl. rewrite !map_app. simpl.
        rewrite !memKind_app. fold (kindsOf (stores v)). rewrite <- If, <- Iv.
        repeat split. simpl. rewrite orb_false_r. reflexivity.
    + rewrite loopBody_unknown in H; [discriminate|].
      apply isKnownKind_false. split; assumption.
Qed.

(** The kinds of the stores after the loop: those before it, followed by
    the new kinds of the entries in the order of their first occurrence. *)
Lemma rangeLoop_kinds paths : forall v v',
  loopInv v -> loop v paths = inr v' ->
  loopInv v' /\
  kindsOf (stores v')
  = kindsOf (stores v)
      ++ filter (fun k => negb (memKind k (kindsOf (stores v))))
                (firstKinds (map Store paths)).
Proof.
  induction paths as [|p rest IH]; intros v v' I H.
  - injection H as <-. split; [exact I|]. simpl. rewrite app_nil_r. reflexivity.
  - rewrite rangeLoop_cons in H.
    destruct (body v p) as [e|v1] eqn:B; [discriminate|].
    destruct (loopBody_step _ _ _ I B) as [I1 K1].
    destruct (IH _ _ I1 H) as [I' K']. split; [exact I'|].
    rewrite K', K1. simpl map. simpl firstKinds.
    destruct (memKind (Store p) (kindsOf (stores v))) eqn:M.
    + rewrite app_nil_r. rewrite (firstKinds_step_seen _ _ _ M). reflexivity.
    + rewrite (firstKinds_step_new _ _ _ M). rewrite <- app_assoc. reflexivity.
Qed.

Lemma loopInv_start : loopInv loopStart.
Proof. split; reflexivity. Qed.

Lemma rangeLoop_firstKinds paths v :
  loop loopStart paths = inr v ->
  kindsOf (stores v) = firstKinds (map Store paths).
Proof.
  intro H. destruct (rangeLoop_kinds _ _ _ loopInv_start H) as [_ K].
  rewrite K. simpl. apply filter_all_true. intros; reflexivity.
Qed.

(** Every store of the list was built by the loop. *)
Lemma loopBody_built v p v' :
  body v p = inr v' ->
  Forall (builtByLoop NewClient g os switchConfig) (stores v) ->
  Forall (builtByLoop NewClient g os switchConfig) (stores v').
Proof.
  intros H F.
  destruct (isFilesystemKind (Store p)) eqn:Hf.
  - rewrite (loopBody_filesystem _ _ Hf) in H. injection H as <-.
    destruct (useFilesystemStore v); [exact F|].
    simpl. apply Forall_app. split; [exact F|].
    constructor; [|constructor]. left. reflexivity.
  - destruct (isVaultKind (Store p)) eqn:Hv.
    + rewrite (loopBody_vault _ _ Hv) in H.
      destruct (useVaultStore v); [injection H as <-; exact F|].
      destruct vault as [e|vs] eqn:V; [discriminate|]. injection H as <-.
      simpl. apply Forall_app. split; [exact F|].
      constructor; [|constructor]. right. exists vs. split; [exact V | reflexivity].
    + rewrite loopBody_unknown in H; [discriminate|].
      apply isKnownKind_false. split; assumption.
Qed.

Lemma rangeLoop_built paths : forall v v',
  loop v paths = inr v' ->
  Forall (builtByLoop NewClient g os switchConfig) (stores v) ->
  Forall (builtByLoop NewClient g os switchConfig) (stores v').
Proof.
  induction paths as [|p rest IH]; intros v v' H F.
  - injection H as <-. exact F.
  - rewrite rangeLoop_cons in H.
    destruct (body v p) as [e|v1] eqn:B; [discriminate|].
    apply (IH _ _ H). apply (loopBody_built _ _ _ B F).
Qed.

(** The loop ends well only if every entry is of a known kind. *)
Lemma rangeLoop_known paths : forall v v',
  loop v paths = inr v' -> forallb (fun p => isKnownKind (Store p)) paths = true.
Proof.
  induction paths as [|p rest IH]; intros v v' H; [reflexivity|].
  rewrite rangeLoop_cons in H. simpl.
  destruct (isKnownKind (Store p)) eqn:K.
  - destruct (body v p) as [e|v1]; [discriminate|]. apply (IH _ _ H).
  - rewrite (loopBody_unknown _ _ K) in H. discriminate.
Qed.

(** Over entries of known kinds the loop ends well as soon as no Vault
    store has to be built or the Vault store can be built. *)
Lemma rangeLoop_succeeds pre : forall v,
  forallb (fun p => isKnownKind (Store p)) pre = true ->
  useVaultStore v = true \/ (exists vs, vault = inr vs) \/ existsb vaultEntry pre = false ->
  exists v', loop v pre = inr v' /\
             useVaultStore v' = useVaultStore v || existsb vaultEntry pre.
Proof.
  induction pre as [|p rest IH]; intros v K C.
  - exists v. split; [reflexivity|]. simpl. rewrite orb_false_r. reflexivity.
  - simpl in K. apply andb_true_iff in K. destruct K as [Kp K].
    rewrite rangeLoop_cons.
    change (existsb vaultEntry (p :: rest))
      with (isVaultKind (Store p) || existsb vaultEntry rest) in *.
    destruct (isFilesystemKind (Store p)) eqn:Hf.
    + rewrite (loopBody_filesystem _ _ Hf).
      assert (Hv : isVaultKind (Store p) = false).
      { destruct (isVaultKind (Store p)) eqn:E; [|reflexivity].
        apply isVaultKind_not_filesystem in E. congruence. }
      rewrite Hv in *. simpl in C. simpl orb.
      destruct (useFilesystemStore v).
      * apply IH; assumption.
      * destruct (IH (withFilesystemStore v) K C) as (v' & L & U).
        exists v'. split; assumption.
    + unfold isKnownKind in Kp. rewrite Hf in Kp. simpl in Kp.
      rewrite (loopBody_vault _ _ Kp). rewrite Kp in *. simpl orb.
      destruct (useVaultStore v) eqn:U.
      * destruct (IH v K (or_introl U)) as (v' & L & U').
        exists v'. split; [exact L|]. rewrite U', U. reflexivity.
      * destruct C as [C|[(vs & C)|C]].
        -- discriminate.
        -- rewrite C.
           destruct (IH (withVaultStore v vs) K (or_introl eq_refl)) as (v' & L & U').
           exists v'. split; [exact L|]. rewrite U'. reflexivity.
        -- discriminate.
Qed.

(** Over entries of known kinds, the first Vault entry ends the loop with
    the error of [getVaultStore], if it returns one. *)
Lemma rangeLoop_vault_fails pre : forall v e,
  forallb (fun p => isKnownKind (Store p)) pre = true ->
  useVaultStore v = false -> vault = inl e ->
  existsb vaultEntry pre = true ->
  loop v pre = inl e.
Proof.
  induction pre as [|p rest IH]; intros v e K U V E; [discriminate|].
  simpl in K. apply andb_true_iff in K. destruct K as [Kp K].
  rewrite rangeLoop_cons.
  change (existsb vaultEntry (p :: rest))
    with (isVaultKind (Store p) || existsb vaultEntry rest) in E.
  destruct (isFilesystemKind (Store p)) eqn:Hf.
  - rewrite (loopBody_filesystem _ _ Hf).
    assert (Hv : isVaultKind (Store p) = false).
    { destruct (isVaultKind (Store p)) eqn:E'; [|reflexivity].
      apply isVaultKind_not_filesystem in E'. congruence. }
    rewrite Hv in E. simpl in E.
    destruct (useFilesystemStore v); apply IH; assumption.
  - unfold isKnownKind in Kp. rewrite Hf in Kp. simpl in Kp.
    rewrite (loopBody_vault _ _ Kp). rewrite U, V. reflexivity.
Qed.

End Loop.

(** ** The RunE closure of the root command *)

Lemma filter_isFilesystemStore_kinds ss :
  length (filter isFilesystemStore ss)
  = length (filter (String.eqb StoreKindFilesystem) (kindsOf ss)).
Proof.
  induction ss as [|s ss IH]; [reflexivity|].
  destruct s; simpl; rewrite IH; reflexivity.
Qed.

Lemma filter_isVaultStore_kinds ss :
  length (filter isVaultStore ss)
  = length (filter (String.eqb StoreKindVault) (kindsOf ss)).
Proof.
  induction ss as [|s ss IH]; [reflexivity|].
  destruct s; simpl; rewrite IH; reflexivity.
Qed.

Lemma example_mixed_run :
  rootCommand_RunE Example.NewClient Example.quote (Example.load Example.mixed)
    (Example.globals EmptyString) Example.osTokenFile
  = Example.mixedRun.
Proof. reflexivity. Qed.

Section RunE.

Variable NewClient : vaultapi_Config -> error + vaultapi_Client.
Variable quote : string -> string.
Variable LoadConfigFromFile : string -> option Config * option error.

Local Abbreviation RunE := (rootCommand_RunE NewClient quote LoadConfigFromFile).

Lemma RunE_load_fails g os loaded e :
  LoadConfigFromFile (configPath g) = (loaded, Some e) ->
  RunE g os = Return (Errorf ("failed to read switch config file: " ++ Error e)%string).
Proof.
  intro H. unfold rootCommand_RunE. rewrite H. reflexivity.
Qed.

Lemma RunE_loaded g os loaded :
  LoadConfigFromFile (configPath g) = (loaded, None) ->
  RunE g os
  = let switchConfig := resolveConfig g loaded in
    match rangeLoop NewClient quote g os switchConfig loopStart
                    (KubeconfigPaths switchConfig) with
    | inl e => Return e
    | inr v => ReturnSwitcher (stores v) switchConfig
                              (configPath g) (stateDirectory g) (showPreview g)
    end.
Proof.
  intro H. unfold rootCommand_RunE. rewrite H. reflexivity.
Qed.

(** The core is reached only after the loop went through the whole
    resolved list. *)
Lemma RunE_reaches_core g os ss switchConfig cp sd sp :
  RunE g os = ReturnSwitcher ss switchConfig cp sd sp ->
  exists loaded v,
    LoadConfigFromFile (configPath g) = (loaded, None) /\
    switchConfig = resolveConfig g loaded /\
    rangeLoop NewClient quote g os switchConfig loopStart
              (KubeconfigPaths switchConfig) = inr v /\
    ss = stores v.
Proof.
  intro H.
  destruct (LoadConfigFromFile (configPath g)) as [loaded [e|]] eqn:L.
  - rewrite (RunE_load_fails _ _ _ _ L) in H. discriminate.
  - rewrite (RunE_loaded _ _ _ L) in H. cbv zeta in H.
    destruct (rangeLoop NewClient quote g os (resolveConfig g loaded) loopStart
                        (KubeconfigPaths (resolveConfig g loaded))) as [e|v] eqn:R;
      [discriminate|].
    injection H as <- <- _ _ _. exists loaded, v. auto.
Qed.

(** C1. Whenever the switch command gets as far as the core, the stores
    list holds exactly one FilesystemStore if the resolved list has a
    filesystem entry and none otherwise, exactly one VaultStore if it has
    a Vault entry and none otherwise, and its length is the number of
    distinct kinds of the resolved list. *)
Theorem RunE_one_store_per_kind g os ss switchConfig cp sd sp :
  RunE g os = ReturnSwitcher ss switchConfig cp sd sp ->
  length (filter isFilesystemStore ss)
  = (if existsb filesystemEntry (KubeconfigPaths switchConfig) then 1 else 0) /\
  length (filter isVaultStore ss)
  = (if existsb vaultEntry (KubeconfigPaths switchConfig) then 1 else 0) /\
  length ss = distinctKinds (map Store (KubeconfigPaths switchConfig)).
Proof.
  intro H. apply RunE_reaches_core in H.
  destruct H as (loaded & v & _ & _ & R & ->).
  apply rangeLoop_firstKinds in R.
  assert (M : forall k paths,
             existsb (fun p => (Store p =? k)%string) paths
             = memKind k (map Store paths)).
  { intros k paths. unfold memKind. induction paths as [|p r IH]; [reflexivity|].
    simpl. rewrite IH, String.eqb_sym. reflexivity. }
  repeat split.
  - rewrite filter_isFilesystemStore_kinds, R, firstKinds_count.
    unfold filesystemEntry, isFilesystemKind. rewrite M. reflexivity.
  - rewrite filter_isVaultStore_kinds, R, firstKinds_count.
    unfold vaultEntry, isVaultKind. rewrite M. reflexivity.
  - rewrite <- firstKinds_length, <- R. unfold kindsOf. rewrite length_map.
    reflexivity.
Qed.

(** C2, as the code has it. Every store the switch command builds is
    given the whole resolved list of paths, the entries of the other kind
    included; the entries of its own kind are therefore all among them. *)
Theorem RunE_stores_receive_all_paths g os ss switchConfig cp sd sp :
  RunE g os = ReturnSwitcher ss switchConfig cp sd sp ->
  forall s, In s ss ->
    storePaths s = KubeconfigPaths switchConfig /\
    filter (fun p => (Store p =? GetKind s)%string) (storePaths s)
    = filter (fun p => (Store p =? GetKind s)%string) (KubeconfigPaths switchConfig).
Proof.
  intro H. apply RunE_reaches_core in H.
  destruct H as (loaded & v & _ & _ & R & ->).
  intros s Hs.
  assert (E : storePaths s = KubeconfigPaths switchConfig).
  { pose proof (rangeLoop_built _ _ _ _ _ _ _ _ R (Forall_nil _)) as F.
    rewrite Forall_forall in F. destruct (F s Hs) as [->|(vs & V & ->)].
    - reflexivity.
    - simpl. apply (getVaultStore_paths _ _ _ _ _ _ V). }
  split; [exact E | rewrite E; reflexivity].
Qed.

(** C7. In every invocation whose configuration loads, the switch
    command works on the list of the configuration file followed by the
    one entry made of [--kubeconfig-path] and [--store] when the former
    is not empty, and on the list of the configuration file alone when it
    is empty: the loop runs over this list, its error is the result of
    the command, and when it goes through the core receives this list and
    the stores built from it. *)
Theorem RunE_appends_one_override g loaded :
  (kubeconfigPath g <> EmptyString ->
     KubeconfigPaths (resolveConfig g loaded)
     = configuredPaths loaded ++ [overridePath g]) /\
  (kubeconfigPath g = EmptyString ->
     KubeconfigPaths (resolveConfig g loaded) = configuredPaths loaded) /\
  (forall os ss switchConfig cp sd sp,
     LoadConfigFromFile (configPath g) = (loaded, None) ->
     RunE g os = ReturnSwitcher ss switchConfig cp sd sp ->
     KubeconfigPaths switchConfig
     = configuredPaths loaded
         ++ (if nonEmpty (kubeconfigPath g) then [overridePath g] else [])) /\
  (forall os,
     LoadConfigFromFile (configPath g) = (loaded, None) ->
     kubeconfigPath g <> EmptyString ->
     let switchConfig :=
       {| KubeconfigPaths := configuredPaths loaded ++ [overridePath g];
          VaultAPIAddress := configuredAddress loaded |} in
     RunE g os
     = match rangeLoop NewClient quote g os switchConfig loopStart
                       (configuredPaths loaded ++ [overridePath g]) with
       | inl e => Return e
       | inr v => ReturnSwitcher (stores v) switchConfig
                                 (configPath g) (stateDirectory g) (showPreview g)
       end) /\
  (forall os,
     LoadConfigFromFile (configPath g) = (loaded, None) ->
     kubeconfigPath g = EmptyString ->
     let switchConfig :=
       {| KubeconfigPaths := configuredPaths loaded;
          VaultAPIAddress := configuredAddress loaded |} in
     RunE g os
     = match rangeLoop NewClient quote g os switchConfig loopStart
                       (configuredPaths loaded) with
       | inl e => Return e
       | inr v => ReturnSwitcher (stores v) switchConfig
                                 (configPath g) (stateDirectory g) (showPreview g)
       end).
Proof.
  assert (E : KubeconfigPaths (resolveConfig g loaded)
              = configuredPaths loaded
                  ++ (if nonEmpty (kubeconfigPath g) then [overridePath g] else [])).
  { unfold resolveConfig, appendKubeconfigPath.
    destruct (nonEmpty (kubeconfigPath g)).
    - destruct loaded; reflexivity.
    - rewrite app_nil_r. destruct loaded; reflexivity. }
  split; [|split; [|split; [|split]]].
  - intro N. apply nonEmpty_true in N. rewrite E, N. reflexivity.
  - intro N. apply nonEmpty_false in N. rewrite E, N. apply app_nil_r.
  - intros os ss switchConfig cp sd sp L H.
    apply RunE_reaches_core in H.
    destruct H as (loaded' & v & L' & -> & _ & _).
    rewrite L in L'. injection L' as <-. exact E.
  - intros os L N switchConfig. apply nonEmpty_true in N.
    rewrite (RunE_loaded _ _ _ L). cbv zeta.
    replace (resolveConfig g loaded) with switchConfig; [reflexivity|].
    unfold switchConfig, resolveConfig, appendKubeconfigPath. rewrite N.
    destruct loaded; reflexivity.
  - intros os L N switchConfig. apply nonEmpty_false in N.
    rewrite (RunE_loaded _ _ _ L). cbv zeta.
    replace (resolveConfig g loaded) with switchConfig; [reflexivity|].
    unfold switchConfig, resolveConfig, appendKubeconfigPath. rewrite N.
    destruct loaded as [[paths address]|]; reflexivity.
Qed.


End RunE.

(** ** The address and the token of the Vault store *)

Section VaultCredentials.

Variable NewClient : vaultapi_Config -> error + vaultapi_Client.

(** C3, as the code has it. The address is resolved by the chain
    environment variable, then flag, then configuration file: a non-empty
    [VAULT_ADDR] is used whatever the flag holds, the flag is used when
    [VAULT_ADDR] is empty, and the configured address when both are. The
    address so resolved is the one the client is built with, and
    [getVaultStore] fails when it is empty. *)
Theorem getVaultStore_address_precedence g os file paths :
  let env := Getenv os "VAULT_ADDR" in
  let flag := vaultAPIAddressFromFlag g in
  let address := addressByPrecedence env flag file in
  (env <> EmptyString -> address = env) /\
  (env = EmptyString -> flag <> EmptyString -> address = flag) /\
  (env = EmptyString -> flag = EmptyString -> address = file) /\
  (address = EmptyString ->
     getVaultStore NewClient g os file paths = inl errNoVaultAddress) /\
  (forall home client,
     address <> EmptyString ->
     UserHomeDir os = inr home ->
     vaultToken_of os home <> EmptyString ->
     NewClient {| Address := address |} = inr client ->
     getVaultStore NewClient g os file paths
     = inr (builtVaultStore g paths client (vaultToken_of os home))) /\
  (forall vs,
     getVaultStore NewClient g os file paths = inr vs ->
     exists client token,
       NewClient {| Address := address |} = inr client /\
       vClient vs = SetToken client token).
Proof.
  intros env flag address.
  assert (A : vaultAPI_of g os file = address) by apply vaultAPI_of_precedence.
  split; [|split; [|split; [|split; [|split]]]].
  - intro N. apply nonEmpty_true in N.
    unfold address, addressByPrecedence. rewrite N. reflexivity.
  - intros E N. apply nonEmpty_true in N.
    unfold address, addressByPrecedence. rewrite E, N. reflexivity.
  - intros E F. unfold address, addressByPrecedence. rewrite E, F. reflexivity.
  - intro E. apply getVaultStore_no_address. rewrite A. apply nonEmpty_false. exact E.
  - intros home client N Hh Ht Hc.
    apply nonEmpty_true in N, Ht. rewrite <- A in N, Hc.
    apply (getVaultStore_success _ _ _ _ _ _ _ N Hh Ht Hc).
  - intros vs H. apply getVaultStore_inr in H.
    destruct H as (home & client & _ & _ & _ & Hc & ->).
    exists client, (vaultToken_of os home). rewrite A in Hc. split; [exact Hc | reflexivity].
Qed.

(** C4. A non-empty [VAULT_TOKEN] is the token of the client whatever
    the token file holds; when it is empty the content of the token file
    is; and when neither gives a non-empty token [getVaultStore] returns
    an error and no store. The first three parts are for a run that gets
    as far as the token (the address is resolved, the home directory is
    known) and whose client is built; the last one is for every run. *)
Theorem getVaultStore_token_precedence g os file paths :
  let env := Getenv os "VAULT_TOKEN" in
  let fileToken := fun home =>
    match fst (ReadFile os (home ++ "/" ++ vaultTokenFileName)%string) with
    | Some content => string_of_list_byte content
    | None => EmptyString
    end in
  (forall home client,
     vaultAPI_of g os file <> EmptyString ->
     UserHomeDir os = inr home ->
     NewClient {| Address := vaultAPI_of g os file |} = inr client ->
     (env <> EmptyString ->
        getVaultStore NewClient g os file paths
        = inr (builtVaultStore g paths client env)) /\
     (env = EmptyString -> fileToken home <> EmptyString ->
        getVaultStore NewClient g os file paths
        = inr (builtVaultStore g paths client (fileToken home)))) /\
  (forall home,
     vaultAPI_of g os file <> EmptyString ->
     UserHomeDir os = inr home ->
     env = EmptyString -> fileToken home = EmptyString ->
     getVaultStore NewClient g os file paths = inl errNoVaultToken) /\
  (env = EmptyString ->
   (forall home, UserHomeDir os = inr home -> fileToken home = EmptyString) ->
   exists e, getVaultStore NewClient g os file paths = inl e).
Proof.
  intros env fileToken.
  assert (T : forall home,
             vaultToken_of os home
             = if nonEmpty env then env else fileToken home).
  { intro home. rewrite vaultToken_of_precedence. reflexivity. }
  split; [|split].
  - intros home client Ha Hh Hc. apply nonEmpty_true in Ha. split.
    + intro N. apply nonEmpty_true in N.
      assert (V : vaultToken_of os home = env) by (rewrite T, N; reflexivity).
      rewrite <- V. apply (getVaultStore_success _ _ _ _ _ _ _ Ha Hh); [|exact Hc].
      rewrite V. exact N.
    + intros E N. apply nonEmpty_true in N.
      assert (V : vaultToken_of os home = fileToken home) by (rewrite T, E; reflexivity).
      rewrite <- V. apply (getVaultStore_success _ _ _ _ _ _ _ Ha Hh); [|exact Hc].
      rewrite V. exact N.
  - intros home N Hh E F. apply nonEmpty_true in N.
    apply (getVaultStore_no_token _ _ _ _ _ _ N Hh).
    rewrite T, E. simpl. apply nonEmpty_false. exact F.
  - intros E F.
    destruct (getVaultStore NewClient g os file paths) as [e|vs] eqn:G;
      [exists e; reflexivity|].
    apply getVaultStore_inr in G.
    destruct G as (home & client & _ & Hh & Ht & _).
    rewrite T, E in Ht. simpl in Ht. rewrite (F home Hh) in Ht. discriminate.
Qed.

(** C10, as the code has it. [getVaultStore] drops the error of reading
    the token file and looks at the bytes the read returned only. In a
    run that reads the file (the address is resolved, the home directory
    is known) with an empty [VAULT_TOKEN] and a read that fails: when the
    read returned no byte (a nil or an empty slice), the result is the
    missing-token error; when it returned some bytes, they are the token,
    and the result is the store built with them or the error of the
    client library. The error of the read is in neither. *)
Theorem getVaultStore_read_error_discarded g os file paths home bytes e :
  vaultAPI_of g os file <> EmptyString ->
  UserHomeDir os = inr home ->
  ReadFile os (home ++ "/" ++ vaultTokenFileName)%string = (bytes, Some e) ->
  Getenv os "VAULT_TOKEN" = EmptyString ->
  (textOfBytes bytes = EmptyString ->
     getVaultStore NewClient g os file paths = inl errNoVaultToken) /\
  (textOfBytes bytes <> EmptyString ->
     getVaultStore NewClient g os file paths
     = match NewClient {| Address := vaultAPI_of g os file |} with
       | inl e' => inl e'
       | inr client => inr (builtVaultStore g paths client (textOfBytes bytes))
       end).
Proof.
  intros N Hh R E. apply nonEmpty_true in N.
  assert (T : vaultToken_of os home = textOfBytes bytes).
  { rewrite vaultToken_of_precedence, E, R. reflexivity. }
  split; intro B.
  - apply (getVaultStore_no_token _ _ _ _ _ _ N Hh).
    rewrite T. apply nonEmpty_false. exact B.
  - apply nonEmpty_true in B. rewrite <- T in B |- *.
    destruct (NewClient {| Address := vaultAPI_of g os file |}) as [e'|client] eqn:Hc.
    + apply (getVaultStore_no_client _ _ _ _ _ _ _ N Hh B Hc).
    + apply (getVaultStore_success _ _ _ _ _ _ _ N Hh B Hc).
Qed.

End VaultCredentials.

(** ** Errors of the RunE closure *)

Lemma find_first {A : Type} (f : A -> bool) (l : list A) :
  match find f l with
  | Some x => exists l1 l2,
      l = l1 ++ x :: l2 /\ forallb (fun y => negb (f y)) l1 = true /\ f x = true
  | None => forallb (fun y => negb (f y)) l = true
  end.
Proof.
  induction l as [|a l IH]; simpl; [reflexivity|].
  destruct (f a) eqn:Fa.
  - exists [], l. auto.
  - destruct (find f l) as [x|].
    + destruct IH as (l1 & l2 & -> & F & Fx).
      exists (a :: l1), l2. simpl. rewrite Fa. auto.
    + simpl. exact IH.
Qed.

Lemma existsb_app_false {A : Type} (f : A -> bool) (l1 l2 : list A) :
  existsb f (l1 ++ l2) = false -> existsb f l1 = false /\ existsb f l2 = false.
Proof. rewrite existsb_app. apply orb_false_iff. Qed.

Lemma errNoVaultAddress_names_sources :
  Contains (Error errNoVaultAddress) "command line argument" = true /\
  Contains (Error errNoVaultAddress) "VAULT_ADDR" = true /\
  Contains (Error errNoVaultAddress) "SwitchConfig file" = true.
Proof. repeat split; vm_compute; reflexivity. Qed.

Section RunEErrors.

Variable NewClient : vaultapi_Config -> error + vaultapi_Client.
Variable quote : string -> string.
Variable LoadConfigFromFile : string -> option Config * option error.

Local Abbreviation RunE := (rootCommand_RunE NewClient quote LoadConfigFromFile).

(** C5, as the code has it. When the configuration is loaded and an
    entry of the resolved list is of an unknown kind, the switch command
    returns an error and the core is not reached. For the first such
    entry, the error is [unknown store] with the quoted kind of that
    entry, unless a Vault entry stands before it and [getVaultStore]
    fails: then the error of [getVaultStore] is returned. *)
Theorem RunE_unknown_store g os loaded pre p post :
  LoadConfigFromFile (configPath g) = (loaded, None) ->
  KubeconfigPaths (resolveConfig g loaded) = pre ++ p :: post ->
  forallb (fun q => isKnownKind (Store q)) pre = true ->
  isKnownKind (Store p) = false ->
  RunE g os
  = Return
      match getVaultStore NewClient g os
              (VaultAPIAddress (resolveConfig g loaded))
              (KubeconfigPaths (resolveConfig g loaded)) with
      | inl e => if existsb vaultEntry pre then e
                 else errUnknownStore quote (Store p)
      | inr _ => errUnknownStore quote (Store p)
      end.
Proof.
  intros L E K U. rewrite (RunE_loaded _ _ _ _ _ _ L). cbv zeta.
  set (switchConfig := resolveConfig g loaded) in *.
  replace (rangeLoop NewClient quote g os switchConfig loopStart
                     (KubeconfigPaths switchConfig))
    with (rangeLoop NewClient quote g os switchConfig loopStart (pre ++ p :: post))
    by (rewrite <- E; reflexivity).
  rewrite rangeLoop_app.
  destruct (getVaultStore NewClient g os (VaultAPIAddress switchConfig)
                          (KubeconfigPaths switchConfig)) as [e|vs] eqn:V.
  - destruct (existsb vaultEntry pre) eqn:X.
    + rewrite (rangeLoop_vault_fails NewClient quote g os switchConfig pre loopStart e
                 K eq_refl V X).
      reflexivity.
    + destruct (rangeLoop_succeeds NewClient quote g os switchConfig pre loopStart K)
        as (v1 & R & _); [right; right; exact X|].
      rewrite R, rangeLoop_cons, (loopBody_unknown _ _ _ _ _ _ _ U). reflexivity.
  - destruct (rangeLoop_succeeds NewClient quote g os switchConfig pre loopStart K)
      as (v1 & R & _); [right; left; exists vs; exact V|].
    rewrite R, rangeLoop_cons, (loopBody_unknown _ _ _ _ _ _ _ U). reflexivity.
Qed.

(** C6, as the code has it. When the configuration is loaded, the
    resolved list has a Vault entry and neither the flag, nor
    [VAULT_ADDR], nor the configuration gives an address, the switch
    command returns an error and the core is not reached. The error is
    the one that names the three sources of the address, unless an entry
    of an unknown kind stands before the first Vault entry: then the
    error is [unknown store] for the first such entry. *)
Theorem RunE_vault_without_address g os loaded pre p post :
  LoadConfigFromFile (configPath g) = (loaded, None) ->
  KubeconfigPaths (resolveConfig g loaded) = pre ++ p :: post ->
  existsb vaultEntry pre = false ->
  vaultEntry p = true ->
  vaultAPIAddressFromFlag g = EmptyString ->
  Getenv os "VAULT_ADDR" = EmptyString ->
  VaultAPIAddress (resolveConfig g loaded) = EmptyString ->
  RunE g os
  = Return
      match find unknownEntry pre with
      | Some q => errUnknownStore quote (Store q)
      | None => errNoVaultAddress
      end /\
  Contains (Error errNoVaultAddress) "command line argument" = true /\
  Contains (Error errNoVaultAddress) "VAULT_ADDR" = true /\
  Contains (Error errNoVaultAddress) "SwitchConfig file" = true.
Proof.
  intros L E X Vp Hflag Henv Hfile.
  split; [|apply errNoVaultAddress_names_sources].
  rewrite (RunE_loaded _ _ _ _ _ _ L). cbv zeta.
  set (switchConfig := resolveConfig g loaded) in *.
  assert (V : getVaultStore NewClient g os (VaultAPIAddress switchConfig)
                            (KubeconfigPaths switchConfig) = inl errNoVaultAddress).
  { apply getVaultStore_no_address. rewrite vaultAPI_of_precedence.
    rewrite Hflag, Henv, Hfile. reflexivity. }
  assert (N : forall l, forallb (fun y => negb (unknownEntry y)) l
                        = forallb (fun q => isKnownKind (Store q)) l).
  { induction l as [|a l IH]; [reflexivity|]. simpl. rewrite IH.
    unfold unknownEntry. rewrite negb_involutive. reflexivity. }
  replace (rangeLoop NewClient quote g os switchConfig loopStart
                     (KubeconfigPaths switchConfig))
    with (rangeLoop NewClient quote g os switchConfig loopStart (pre ++ p :: post))
    by (rewrite <- E; reflexivity).
  clear E.
  pose proof (find_first unknownEntry pre) as F.
  destruct (find unknownEntry pre) as [q|].
  - destruct F as (l1 & l2 & -> & K & Uq). rewrite N in K.
    apply existsb_app_false in X. destruct X as [X1 _].
    destruct (rangeLoop_succeeds NewClient quote g os switchConfig l1 loopStart K)
      as (v1 & R & _); [right; right; exact X1|].
    rewrite <- !app_assoc, rangeLoop_app, R. simpl app. rewrite rangeLoop_cons.
    unfold unknownEntry in Uq. apply negb_true_iff in Uq.
    rewrite (loopBody_unknown _ _ _ _ _ _ _ Uq). reflexivity.
  - rewrite N in F.
    destruct (rangeLoop_succeeds NewClient quote g os switchConfig pre loopStart F)
      as (v1 & R & U1); [right; right; exact X|].
    rewrite X in U1. simpl in U1.
    rewrite rangeLoop_app, R, rangeLoop_cons.
    rewrite (loopBody_vault _ _ _ _ _ _ _ Vp), U1, V. reflexivity.
Qed.

End RunEErrors.

(** ** The flags of the hooks command *)

Lemma hookFlags_initialised (os : OS) :
  map Name (hookFlags (initialised os))
  = ["config-path"; "state-directory"; "hook-name"; "run-immediately"]%string.
Proof. reflexivity. Qed.

Lemma runImmediately_initialised (os : OS) :
  runImmediately (vars (initialised os)) = true.
Proof. reflexivity. Qed.

(** Setting a flag of the hooks command other than [--run-immediately]
    leaves the variable [runImmediately] as it is. *)
Lemma Set_keeps_runImmediately (os : OS) (a : Arg) (g g' : Globals) :
  fst a <> "run-immediately"%string ->
  Set_ (hookFlags (initialised os)) a g = inr g' ->
  runImmediately g' = runImmediately g.
Proof.
  intros N H. destruct a as [name value].
  unfold Set_, Lookup in H. cbn -[String.eqb] in H, N.
  destruct ("config-path" =? name)%string.
  { cbn -[String.eqb] in H.
    destruct value; [injection H as <-; reflexivity | discriminate]. }
  destruct ("state-directory" =? name)%string.
  { cbn -[String.eqb] in H.
    destruct value; [injection H as <-; reflexivity | discriminate]. }
  destruct ("hook-name" =? name)%string.
  { cbn -[String.eqb] in H.
    destruct value; [injection H as <-; reflexivity | discriminate]. }
  destruct (String.eqb_spec "run-immediately" name) as [<-|_].
  { exfalso. apply N. reflexivity. }
  discriminate.
Qed.

Lemma Parse_keeps_runImmediately (os : OS) (args : list Arg) : forall g g',
  Forall (fun a => fst a <> "run-immediately"%string) args ->
  Parse (hookFlags (initialised os)) args g = inr g' ->
  runImmediately g' = runImmediately g.
Proof.
  induction args as [|a rest IH]; intros g g' F H.
  - injection H as <-. reflexivity.
  - inversion F as [|? ? Fa Fr]; subst. cbn [Parse] in H.
    destruct (Set_ (hookFlags (initialised os)) a g) as [e|g1] eqn:S; [discriminate|].
    rewrite (IH _ _ Fr H). apply (Set_keeps_runImmediately os a _ _ Fa S).
Qed.

(** C9. The variable behind [--run-immediately] holds true once the
    flags are registered, and an invocation of the hooks command whose
    arguments do not set [--run-immediately] calls the scheduler with
    [runImmediately] true; with no arguments at all it does so. *)
Theorem runHooks_runImmediately_default (os : OS) :
  (exists call, runHooks os [] = inr call /\ hRunImmediately call = true) /\
  (forall args call,
     Forall (fun a => fst a <> "run-immediately"%string) args ->
     runHooks os args = inr call ->
     hRunImmediately call = true).
Proof.
  split.
  - eexists. split; reflexivity.
  - intros args call F H. unfold runHooks in H.
    destruct (Parse (hookFlags (initialised os)) args (vars (initialised os)))
      as [e|g] eqn:P; [discriminate|].
    injection H as <-. simpl.
    rewrite (Parse_keeps_runImmediately os args _ _ F P). reflexivity.
Qed.

(** ** The properties on concrete runs *)

(** A run of the switch command on four entries of two kinds. *)
Lemma RunE_one_store_per_kind_witness :
  rootCommand_RunE Example.NewClient Example.quote (Example.load Example.mixed)
    (Example.globals EmptyString) Example.osTokenFile
  = Example.mixedRun /\
  length (filter isFilesystemStore Example.mixedStores) = 1 /\
  length (filter isVaultStore Example.mixedStores) = 1 /\
  length Example.mixedStores = 2.
Proof.
  split; [reflexivity|].
  exact (RunE_one_store_per_kind Example.NewClient Example.quote
           (Example.load Example.mixed) (Example.globals EmptyString)
           Example.osTokenFile Example.mixedStores Example.mixed _ _ _ eq_refl).
Defined.

(** C2 fails on a list of both kinds: the filesystem store is given the
    Vault entries as well. *)
Lemma RunE_filesystem_store_gets_vault_paths :
  ~ ownsOnlyOwnKind
      (rootCommand_RunE Example.NewClient Example.quote (Example.load Example.mixed)
         (Example.globals EmptyString) Example.osTokenFile).
Proof.
  rewrite example_mixed_run. intro H.
  specialize (H (IsFilesystemStore Example.mixedFilesystemStore)
                (or_intror (or_introl eq_refl))).
  discriminate H.
Qed.

Lemma RunE_stores_receive_all_paths_witness :
  storePaths (IsFilesystemStore Example.mixedFilesystemStore)
  = KubeconfigPaths Example.mixed /\
  storePaths (IsVaultStore Example.mixedVaultStore)
  = KubeconfigPaths Example.mixed.
Proof.
  split.
  - apply (RunE_stores_receive_all_paths Example.NewClient Example.quote
             (Example.load Example.mixed) (Example.globals EmptyString)
             Example.osTokenFile Example.mixedStores Example.mixed _ _ _ eq_refl
             (IsFilesystemStore Example.mixedFilesystemStore)).
    right. left. reflexivity.
  - apply (RunE_stores_receive_all_paths Example.NewClient Example.quote
             (Example.load Example.mixed) (Example.globals EmptyString)
             Example.osTokenFile Example.mixedStores Example.mixed _ _ _ eq_refl
             (IsVaultStore Example.mixedVaultStore)).
    left. reflexivity.
Defined.

(** C3 fails when the flag and [VAULT_ADDR] are both given: the client is
    built with the address of the environment, not with the flag's. *)
Lemma getVaultStore_env_address_beats_flag :
  ~ flagAddressFirst Example.NewClient Example.globalsFlag Example.osVaultEnv
      "https://vault.file" [].
Proof.
  intro H.
  destruct (H ltac:(discriminate) Example.envVaultStore eq_refl)
    as (client & token & C & E).
  injection C as <-. discriminate E.
Qed.

Lemma getVaultStore_address_precedence_witness :
  getVaultStore Example.NewClient Example.globalsFlag Example.osVaultEnv
                "https://vault.file" []
  = inr Example.envVaultStore /\
  getVaultStore Example.NewClient (Example.globals EmptyString) Example.osBare
                EmptyString []
  = inl errNoVaultAddress.
Proof.
  destruct (getVaultStore_address_precedence Example.NewClient Example.globalsFlag
              Example.osVaultEnv "https://vault.file" [])
    as (_ & _ & _ & _ & S & _).
  destruct (getVaultStore_address_precedence Example.NewClient
              (Example.globals EmptyString) Example.osBare EmptyString [])
    as (_ & _ & _ & F & _).
  split.
  - apply (S "/home/op" {| clientConfig := {| Address := "https://vault.env" |};
                           clientToken := EmptyString |});
      [discriminate | reflexivity | discriminate | reflexivity].
  - apply F. reflexivity.
Defined.

Lemma getVaultStore_token_precedence_witness :
  getVaultStore Example.NewClient Example.globalsFlag Example.osVaultEnv
                "https://vault.file" []
  = inr Example.envVaultStore /\
  getVaultStore Example.NewClient (Example.globals EmptyString) Example.osTokenFile
                "https://vault.file" (KubeconfigPaths Example.mixed)
  = inr Example.mixedVaultStore /\
  getVaultStore Example.NewClient (Example.globals EmptyString) Example.osBare
                "https://vault.file" []
  = inl errNoVaultToken.
Proof.
  destruct (getVaultStore_token_precedence Example.NewClient Example.globalsFlag
              Example.osVaultEnv "https://vault.file" []) as (S1 & _ & _).
  destruct (getVaultStore_token_precedence Example.NewClient
              (Example.globals EmptyString) Example.osTokenFile
              "https://vault.file" (KubeconfigPaths Example.mixed)) as (S2 & _ & _).
  destruct (getVaultStore_token_precedence Example.NewClient
              (Example.globals EmptyString) Example.osBare
              "https://vault.file" []) as (_ & F & _).
  split; [|split].
  - apply (S1 "/home/op" {| clientConfig := {| Address := "https://vault.env" |};
                            clientToken := EmptyString |});
      [discriminate | reflexivity | reflexivity | discriminate].
  - apply (S2 "/home/op" {| clientConfig := {| Address := "https://vault.file" |};
                            clientToken := EmptyString |});
      [discriminate | reflexivity | reflexivity | reflexivity | discriminate].
  - apply (F "/home/op"); [discriminate | reflexivity | reflexivity | reflexivity].
Defined.

(** C10 fails when the read of the token file returns some bytes with
    its error: the bytes are used as the token and a store is returned,
    not the missing-token error. *)
Lemma partial_read_gives_truncated_token :
  getVaultStore Example.NewClient (Example.globals EmptyString) Scenario.osPartialRead
                "https://vault.file" []
  = inr Scenario.truncatedStore /\
  ~ failedReadIsAbsentToken Example.NewClient (Example.globals EmptyString)
      Scenario.osPartialRead "https://vault.file" [].
Proof.
  split; [reflexivity|].
  intro H.
  specialize (H "/home/op"%string
                (Errorf "read /home/op/.vault-token: input/output error")
                ltac:(discriminate) eq_refl eq_refl eq_refl).
  discriminate H.
Qed.

(** Three failing reads of the token file: the file is missing, it is a
    directory, the read breaks after five bytes. *)
Lemma getVaultStore_read_error_discarded_witness :
  getVaultStore Example.NewClient (Example.globals EmptyString) Example.osBare
                "https://vault.file" []
  = inl errNoVaultToken /\
  getVaultStore Example.NewClient (Example.globals EmptyString)
                Scenario.osTokenDirectory "https://vault.file" []
  = inl errNoVaultToken /\
  getVaultStore Example.NewClient (Example.globals EmptyString)
                Scenario.osPartialRead "https://vault.file" []
  = inr Scenario.truncatedStore.
Proof.
  split; [|split].
  - apply (getVaultStore_read_error_discarded Example.NewClient
             (Example.globals EmptyString) Example.osBare "https://vault.file" []
             "/home/op" None
             (Errorf "open /home/op/.vault-token: no such file or directory"));
      [discriminate | reflexivity | reflexivity | reflexivity | reflexivity].
  - apply (getVaultStore_read_error_discarded Example.NewClient
             (Example.globals EmptyString) Scenario.osTokenDirectory
             "https://vault.file" []
             "/home/op" (Some [])
             (Errorf "read /home/op/.vault-token: is a directory"));
      [discriminate | reflexivity | reflexivity | reflexivity | reflexivity].
  - apply (proj2 (getVaultStore_read_error_discarded Example.NewClient
             (Example.globals EmptyString) Scenario.osPartialRead
             "https://vault.file" []
             "/home/op" (Some (list_byte_of_string "s.fil"))
             (Errorf "read /home/op/.vault-token: input/output error")
             ltac:(discriminate) eq_refl eq_refl eq_refl)).
    discriminate.
Defined.

(** C5 fails when a Vault entry without an address stands before the
    entry of an unknown kind: the error is about the address and does not
    name the unknown store. *)
Lemma vault_error_hides_unknown_store :
  rootCommand_RunE Example.NewClient Example.quote (Example.load Example.vaultThenS3)
    (Example.globals EmptyString) Example.osTokenFile
  = Return errNoVaultAddress /\
  ~ unknownStoreNamed Example.quote (KubeconfigPaths Example.vaultThenS3)
      (rootCommand_RunE Example.NewClient Example.quote
         (Example.load Example.vaultThenS3)
         (Example.globals EmptyString) Example.osTokenFile).
Proof.
  split; [reflexivity|].
  intro H. destruct (H eq_refl) as (p & I & U & E).
  destruct I as [<-|[<-|[]]]; discriminate.
Qed.

Lemma RunE_unknown_store_witness :
  rootCommand_RunE Example.NewClient Example.quote (Example.load Example.fsThenS3)
    (Example.globals EmptyString) Example.osTokenFile
  = Return (errUnknownStore Example.quote "s3").
Proof.
  apply (RunE_unknown_store Example.NewClient Example.quote
           (Example.load Example.fsThenS3) (Example.globals EmptyString)
           Example.osTokenFile (Some Example.fsThenS3)
           [Example.fsPath "/home/op/.kube"] (Example.s3Path "bucket") []);
    reflexivity.
Defined.

(** C6 fails when an entry of an unknown kind stands before the Vault
    entry: the error names the unknown store, not the sources of the
    address. *)
Lemma unknown_store_hides_address_error :
  rootCommand_RunE Example.NewClient Example.quote (Example.load Example.s3ThenVault)
    (Example.globals EmptyString) Example.osTokenFile
  = Return (errUnknownStore Example.quote "s3") /\
  ~ addressSourcesNamed (Example.globals EmptyString) Example.osTokenFile
      Example.s3ThenVault
      (rootCommand_RunE Example.NewClient Example.quote
         (Example.load Example.s3ThenVault)
         (Example.globals EmptyString) Example.osTokenFile).
Proof.
  split; [reflexivity|].
  intro H. destruct (H eq_refl eq_refl) as (e & E & _ & A & _).
  injection E as <-. vm_compute in A. discriminate A.
Qed.

Lemma RunE_vault_without_address_witness :
  rootCommand_RunE Example.NewClient Example.quote (Example.load Example.fsThenVault)
    (Example.globals EmptyString) Example.osTokenFile
  = Return errNoVaultAddress.
Proof.
  apply (RunE_vault_without_address Example.NewClient Example.quote
           (Example.load Example.fsThenVault) (Example.globals EmptyString)
           Example.osTokenFile (Some Example.fsThenVault)
           [Example.fsPath "/home/op/.kube"] (Example.vaultPath "landscapes/dev") []);
    reflexivity.
Defined.

(** Three runs over the configuration [onlyFs]: with a Vault path on
    the command line, with a path of an unknown store, and with none. *)
Lemma RunE_appends_one_override_witness :
  rootCommand_RunE Example.NewClient Example.quote (Example.load Example.onlyFs)
    Example.globalsOverride Example.osTokenFile
  = ReturnSwitcher Example.overrideStores Example.overrideConfig
      "/home/op/.kube/switch-config.yaml" "/home/op/.kube/switch-state" true /\
  rootCommand_RunE Example.NewClient Example.quote (Example.load Example.onlyFs)
    Scenario.globalsS3 Example.osTokenFile
  = Return (errUnknownStore Example.quote "s3") /\
  rootCommand_RunE Example.NewClient Example.quote (Example.load Example.onlyFs)
    (Example.globals EmptyString) Example.osTokenFile
  = ReturnSwitcher Scenario.onlyFsStores Example.onlyFs
      "/home/op/.kube/switch-config.yaml" "/home/op/.kube/switch-state" true.
Proof.
  destruct (RunE_appends_one_override Example.NewClient Example.quote
              (Example.load Example.onlyFs)
              Example.globalsOverride (Some Example.onlyFs)) as (_ & _ & _ & A & _).
  destruct (RunE_appends_one_override Example.NewClient Example.quote
              (Example.load Example.onlyFs)
              Scenario.globalsS3 (Some Example.onlyFs)) as (_ & _ & _ & B & _).
  destruct (RunE_appends_one_override Example.NewClient Example.quote
              (Example.load Example.onlyFs)
              (Example.globals EmptyString) (Some Example.onlyFs)) as (_ & _ & _ & _ & C).
  split; [|split].
  - exact (A Example.osTokenFile eq_refl ltac:(discriminate)).
  - exact (B Example.osTokenFile eq_refl ltac:(discriminate)).
  - exact (C Example.osTokenFile eq_refl eq_refl).
Defined.


Lemma runHooks_runImmediately_default_witness :
  hRunImmediately
    {| hLog := [("hook", "refresh")];
       hConfigPath := "/home/op/.kube/switch-config.yaml";
       hStateDirectory := "/tmp/state";
       hHookName := "refresh";
       hRunImmediately := true |} = true.
Proof.
  destruct (runHooks_runImmediately_default Example.osHome) as [_ D].
  apply (D [("hook-name", Some "refresh"); ("state-directory", Some "/tmp/state")]%string).
  - repeat constructor; discriminate.
  - reflexivity.
Defined.

(** * Further properties *)

(** ** What makes the loop fail or go through *)

Lemma firstKinds_nil l : firstKinds l = [] <-> l = [].
Proof.
  destruct l; simpl; split; intro H; try reflexivity; discriminate H.
Qed.

Lemma vaultEntry_not_filesystem p :
  vaultEntry p = true -> filesystemEntry p = false.
Proof. apply isVaultKind_not_filesystem. Qed.

Section LoopOutcome.

Variable NewClient : vaultapi_Config -> error + vaultapi_Client.
Variable quote : string -> string.
Variable g : Globals.
Variable os : OS.
Variable switchConfig : Config.

Local Abbreviation body := (loopBody NewClient quote g os switchConfig).
Local Abbreviation loop := (rangeLoop NewClient quote g os switchConfig).
Local Abbreviation vault :=
  (getVaultStore NewClient g os (VaultAPIAddress switchConfig)
                 (KubeconfigPaths switchConfig)).
Local Abbreviation bodyCounted := (loopBodyCounted NewClient quote g os switchConfig).
Local Abbreviation loopCounted := (rangeLoopCounted NewClient quote g os switchConfig).

(** The three kinds of entries, as the [switch] statement tells them
    apart. *)
Lemma entry_cases p :
  (filesystemEntry p = true /\ vaultEntry p = false) \/
  (filesystemEntry p = false /\ vaultEntry p = true) \/
  (isKnownKind (Store p) = false /\ vaultEntry p = false).
Proof.
  unfold filesystemEntry, vaultEntry, isKnownKind.
  destruct (isFilesystemKind (Store p)) eqn:F.
  - left. split; [reflexivity|].
    destruct (isVaultKind (Store p)) eqn:V; [|reflexivity].
    apply isVaultKind_not_filesystem in V. congruence.
  - destruct (isVaultKind (Store p)); auto.
Qed.

(** An error of the loop is the unknown-store error of one of the
    entries or the error [getVaultStore] returned for a Vault entry. *)
Lemma rangeLoop_error_cause paths : forall v e,
  loop v paths = inl e ->
  (exists p, In p paths /\ unknownEntry p = true /\
             e = errUnknownStore quote (Store p)) \/
  (existsb vaultEntry paths = true /\ vault = inl e).
Proof.
  induction paths as [|p rest IH]; intros v e H; [discriminate|].
  rewrite rangeLoop_cons in H.
  change (existsb vaultEntry (p :: rest))
    with (vaultEntry p || existsb vaultEntry rest).
  assert (K : forall v1, loop v1 rest = inl e ->
            (exists p0, In p0 (p :: rest) /\ unknownEntry p0 = true /\
                        e = errUnknownStore quote (Store p0)) \/
            (vaultEntry p || existsb vaultEntry rest = true /\ vault = inl e)).
  { intros v1 H1. destruct (IH _ _ H1) as [(q & I & U & E)|[X V]].
    - left. exists q. split; [right; exact I | auto].
    - right. rewrite X, orb_true_r. auto. }
  destruct (entry_cases p) as [[F V]|[[F V]|[U V]]].
  - rewrite (loopBody_filesystem _ _ _ _ _ _ _ F) in H. apply (K _ H).
  - rewrite (loopBody_vault _ _ _ _ _ _ _ V) in H.
    destruct (useVaultStore v); [apply (K _ H)|].
    destruct vault as [e'|vs] eqn:G; [|apply (K _ H)].
    injection H as <-. right. rewrite V. auto.
  - rewrite (loopBody_unknown _ _ _ _ _ _ _ U) in H. injection H as <-.
    left. exists p. split; [left; reflexivity|]. split; [|reflexivity].
    unfold unknownEntry. rewrite U. reflexivity.
Qed.

(** A loop that went through with a Vault entry on its way and the flag
    still down had a Vault store built for it. *)
Lemma rangeLoop_vault_was_built paths : forall v v',
  loop v paths = inr v' -> useVaultStore v = false ->
  existsb vaultEntry paths = true ->
  exists vs, vault = inr vs.
Proof.
  induction paths as [|p rest IH]; intros v v' H U X; [discriminate|].
  rewrite rangeLoop_cons in H.
  change (existsb vaultEntry (p :: rest))
    with (vaultEntry p || existsb vaultEntry rest) in X.
  destruct (entry_cases p) as [[F V]|[[F V]|[N V]]].
  - rewrite (loopBody_filesystem _ _ _ _ _ _ _ F) in H. rewrite V in X.
    destruct (useFilesystemStore v); apply (IH _ _ H); assumption.
  - rewrite (loopBody_vault _ _ _ _ _ _ _ V), U in H.
    destruct vault as [e|vs]; [discriminate|]. exists vs. reflexivity.
  - rewrite (loopBody_unknown _ _ _ _ _ _ _ N) in H. discriminate.
Qed.

(** The counted loop is the loop. *)
Lemma loopBodyCounted_result v p : snd (bodyCounted v p) = body v p.
Proof.
  unfold loopBodyCounted, loopBody.
  destruct (Store p =? StoreKindFilesystem)%string.
  - destruct (useFilesystemStore v); reflexivity.
  - destruct (Store p =? StoreKindVault)%string; [|reflexivity].
    destruct (useVaultStore v); [reflexivity|]. simpl.
    destruct vault; reflexivity.
Qed.

Lemma rangeLoopCounted_result paths : forall v,
  snd (loopCounted v paths) = loop v paths.
Proof.
  induction paths as [|p rest IH]; intro v; [reflexivity|].
  rewrite rangeLoop_cons, <- loopBodyCounted_result. cbn [rangeLoopCounted].
  destruct (bodyCounted v p) as [n [e|v1]]; [reflexivity|]. simpl.
  rewrite <- IH. destruct (loopCounted v1 rest). reflexivity.
Qed.

(** What one iteration counts, and what it does to the Vault flag. *)
Lemma loopBodyCounted_count v p :
  fst (bodyCounted v p)
  = (if vaultEntry p && negb (useVaultStore v) then 1 else 0) /\
  (forall v', snd (bodyCounted v p) = inr v' ->
     useVaultStore v' = useVaultStore v || vaultEntry p).
Proof.
  destruct (entry_cases p) as [[F V]|[[F V]|[N V]]]; rewrite V.
  - unfold filesystemEntry, isFilesystemKind in F.
    unfold loopBodyCounted. rewrite F.
    destruct (useFilesystemStore v); simpl; split; try reflexivity;
      intros v' H; injection H as <-; simpl; rewrite ?orb_false_r; reflexivity.
  - unfold filesystemEntry, isFilesystemKind in F.
    unfold vaultEntry, isVaultKind in V.
    unfold loopBodyCounted. rewrite F, V.
    destruct (useVaultStore v) eqn:U; simpl; split; try reflexivity.
    + intros v' H. injection H as <-. exact U.
    + intros v' H. destruct vault; [discriminate|]. injection H as <-. reflexivity.
  - apply isKnownKind_false in N. destruct N as [F V'].
    unfold isFilesystemKind in F. unfold isVaultKind in V'.
    unfold loopBodyCounted. rewrite F, V'. simpl. split; [reflexivity|].
    intros v' H. discriminate.
Qed.

(** The loop calls [getVaultStore] at most once, never once the flag is
    up, and never without a Vault entry. *)
Lemma rangeLoopCounted_bound paths : forall v,
  fst (loopCounted v paths)
  <= (if existsb vaultEntry paths && negb (useVaultStore v) then 1 else 0).
Proof.
  induction paths as [|p rest IH]; intro v; [simpl; lia|].
  cbn [rangeLoopCounted].
  change (existsb vaultEntry (p :: rest))
    with (vaultEntry p || existsb vaultEntry rest).
  destruct (loopBodyCounted_count v p) as [C U].
  destruct (bodyCounted v p) as [n [e|v1]]; simpl in C, U |- *.
  - subst n. destruct (vaultEntry p); destruct (useVaultStore v); simpl; lia.
  - specialize (IH v1). specialize (U v1 eq_refl).
    destruct (loopCounted v1 rest) as [m r]. simpl in IH |- *.
    subst n. rewrite U in IH.
    destruct (vaultEntry p); destruct (useVaultStore v);
      destruct (existsb vaultEntry rest); simpl in *; lia.
Qed.

(** A loop that goes through a Vault entry with the flag down calls
    [getVaultStore] exactly once. *)
Lemma rangeLoopCounted_once paths : forall v v',
  snd (loopCounted v paths) = inr v' -> useVaultStore v = false ->
  existsb vaultEntry paths = true ->
  fst (loopCounted v paths) = 1.
Proof.
  induction paths as [|p rest IH]; intros v v' H U X; [discriminate|].
  cbn [rangeLoopCounted] in H |- *.
  change (existsb vaultEntry (p :: rest))
    with (vaultEntry p || existsb vaultEntry rest) in X.
  destruct (loopBodyCounted_count v p) as [C F].
  destruct (bodyCounted v p) as [n [e|v1]]; simpl in C, F; [discriminate H|].
  specialize (F v1 eq_refl). rewrite U in C, F. simpl in C, F.
  pose proof (rangeLoopCounted_bound rest v1) as B.
  specialize (IH v1 v').
  destruct (loopCounted v1 rest) as [m r]. simpl in H, B, IH |- *.
  destruct (vaultEntry p).
  - rewrite F in B. rewrite andb_false_r in B. simpl in C. lia.
  - simpl in X, C. subst n. rewrite (IH H F X). reflexivity.
Qed.

End LoopOutcome.

(** A loop over a list without Vault entries does not depend on the
    client library or on the surroundings. *)
Lemma rangeLoop_without_vault NewClient NewClient' quote g os os' switchConfig paths :
  existsb vaultEntry paths = false ->
  forall v,
    rangeLoop NewClient quote g os switchConfig v paths
    = rangeLoop NewClient' quote g os' switchConfig v paths.
Proof.
  induction paths as [|p rest IH]; intros X v; [reflexivity|].
  change (existsb vaultEntry (p :: rest))
    with (vaultEntry p || existsb vaultEntry rest) in X.
  apply orb_false_iff in X. destruct X as [Vp X].
  rewrite !rangeLoop_cons.
  destruct (entry_cases p) as [[F V]|[[F V]|[N V]]].
  - rewrite !(loopBody_filesystem _ _ _ _ _ _ _ F). apply (IH X).
  - congruence.
  - rewrite !(loopBody_unknown _ _ _ _ _ _ _ N). reflexivity.
Qed.

(** ** When the switch command reaches the core *)

Section RunEOutcome.

Variable NewClient : vaultapi_Config -> error + vaultapi_Client.
Variable quote : string -> string.
Variable LoadConfigFromFile : string -> option Config * option error.

Local Abbreviation RunE := (rootCommand_RunE NewClient quote LoadConfigFromFile).
Local Abbreviation calls := (rootCommand_RunE_calls NewClient quote LoadConfigFromFile).

(** X1. The switch command reaches the core exactly when the
    configuration loads without error, every entry of the resolved list
    is of a known kind, and [getVaultStore] returns a store in case the
    list has a Vault entry. *)
Theorem RunE_reaches_core_iff g os :
  (exists ss switchConfig cp sd sp,
     RunE g os = ReturnSwitcher ss switchConfig cp sd sp) <->
  (exists loaded,
     LoadConfigFromFile (configPath g) = (loaded, None) /\
     forallb (fun p => isKnownKind (Store p))
             (KubeconfigPaths (resolveConfig g loaded)) = true /\
     (existsb vaultEntry (KubeconfigPaths (resolveConfig g loaded)) = true ->
      exists vs,
        getVaultStore NewClient g os (VaultAPIAddress (resolveConfig g loaded))
                      (KubeconfigPaths (resolveConfig g loaded)) = inr vs)).
Proof.
  split.
  - intros (ss & switchConfig & cp & sd & sp & H).
    apply RunE_reaches_core in H. destruct H as (loaded & v & L & -> & R & _).
    exists loaded. split; [exact L|]. split.
    + apply (rangeLoop_known _ _ _ _ _ _ _ _ R).
    + intro X. apply (rangeLoop_vault_was_built _ _ _ _ _ _ _ _ R eq_refl X).
  - intros (loaded & L & K & V).
    rewrite (RunE_loaded _ _ _ _ _ _ L). cbv zeta.
    destruct (rangeLoop_succeeds NewClient quote g os (resolveConfig g loaded)
                (KubeconfigPaths (resolveConfig g loaded)) loopStart K)
      as (v & R & _).
    + destruct (existsb vaultEntry (KubeconfigPaths (resolveConfig g loaded)));
        [right; left; apply V; reflexivity | right; right; reflexivity].
    + rewrite R. eexists _, _, _, _, _. reflexivity.
Qed.

(** X2. An error of the switch command has one of three causes: the
    configuration did not load, and the error wraps the loader's; an
    entry of the resolved list is of an unknown kind, and the error names
    it; or the list has a Vault entry and the error is the one
    [getVaultStore] returned. *)
Theorem RunE_error_causes g os e :
  RunE g os = Return e ->
  (exists loaded cause,
     LoadConfigFromFile (configPath g) = (loaded, Some cause) /\
     e = Errorf ("failed to read switch config file: " ++ Error cause)%string) \/
  (exists loaded p,
     LoadConfigFromFile (configPath g) = (loaded, None) /\
     In p (KubeconfigPaths (resolveConfig g loaded)) /\
     unknownEntry p = true /\
     e = errUnknownStore quote (Store p)) \/
  (exists loaded,
     LoadConfigFromFile (configPath g) = (loaded, None) /\
     existsb vaultEntry (KubeconfigPaths (resolveConfig g loaded)) = true /\
     getVaultStore NewClient g os (VaultAPIAddress (resolveConfig g loaded))
                   (KubeconfigPaths (resolveConfig g loaded)) = inl e).
Proof.
  intro H.
  destruct (LoadConfigFromFile (configPath g)) as [loaded [cause|]] eqn:L.
  - rewrite (RunE_load_fails _ _ _ _ _ _ _ L) in H. injection H as <-.
    left. exists loaded, cause. auto.
  - rewrite (RunE_loaded _ _ _ _ _ _ L) in H. cbv zeta in H.
    destruct (rangeLoop NewClient quote g os (resolveConfig g loaded) loopStart
                        (KubeconfigPaths (resolveConfig g loaded))) as [e'|v] eqn:R;
      [|discriminate].
    injection H as <-.
    destruct (rangeLoop_error_cause _ _ _ _ _ _ _ _ R) as [(p & I & U & E)|[X V]].
    + right. left. exists loaded, p. auto.
    + right. right. exists loaded. auto.
Qed.

(** X3. With a resolved list that has no Vault entry the switch command
    does not depend on the Vault client library nor on the surroundings:
    no address, token or home directory is needed. *)
Theorem RunE_without_vault_entry g os loaded :
  LoadConfigFromFile (configPath g) = (loaded, None) ->
  existsb vaultEntry (KubeconfigPaths (resolveConfig g loaded)) = false ->
  forall NewClient' os',
    RunE g os = rootCommand_RunE NewClient' quote LoadConfigFromFile g os'.
Proof.
  intros L X NewClient' os'.
  rewrite (RunE_loaded _ _ _ _ _ _ L), (RunE_loaded NewClient' _ _ _ os' _ L).
  cbv zeta.
  rewrite (rangeLoop_without_vault NewClient NewClient' quote g os os' _ _ X).
  reflexivity.
Qed.

(** X4. One run of the switch command calls [getVaultStore] at most
    once: not at all when the resolved list has no Vault entry, and
    exactly once when the core is reached with a Vault entry in the
    list. The count is taken on the loop itself. *)
Theorem RunE_calls_getVaultStore_once g os :
  (forall switchConfig v paths,
     snd (rangeLoopCounted NewClient quote g os switchConfig v paths)
     = rangeLoop NewClient quote g os switchConfig v paths) /\
  calls g os <= 1 /\
  (forall loaded,
     LoadConfigFromFile (configPath g) = (loaded, None) ->
     existsb vaultEntry (KubeconfigPaths (resolveConfig g loaded)) = false ->
     calls g os = 0) /\
  (forall ss switchConfig cp sd sp,
     RunE g os = ReturnSwitcher ss switchConfig cp sd sp ->
     existsb vaultEntry (KubeconfigPaths switchConfig) = true ->
     calls g os = 1).
Proof.
  split; [intros; apply rangeLoopCounted_result|].
  unfold rootCommand_RunE_calls. split; [|split].
  - destruct (LoadConfigFromFile (configPath g)) as [loaded [cause|]]; [lia|].
    cbv zeta.
    pose proof (rangeLoopCounted_bound NewClient quote g os (resolveConfig g loaded)
                  (KubeconfigPaths (resolveConfig g loaded)) loopStart) as B.
    destruct (existsb vaultEntry (KubeconfigPaths (resolveConfig g loaded)));
      simpl in B; lia.
  - intros loaded L X. rewrite L. cbv zeta.
    pose proof (rangeLoopCounted_bound NewClient quote g os (resolveConfig g loaded)
                  (KubeconfigPaths (resolveConfig g loaded)) loopStart) as B.
    rewrite X in B. simpl in B. lia.
  - intros ss switchConfig cp sd sp H X.
    apply RunE_reaches_core in H. destruct H as (loaded & v & L & -> & R & _).
    rewrite L. cbv zeta.
    apply (rangeLoopCounted_once NewClient quote g os _ _ loopStart v);
      [rewrite rangeLoopCounted_result; exact R | reflexivity | exact X].
Qed.

(** X5. With an empty resolved list the core is called with no store at
    all, and this is the only way for the stores list to be empty. *)
Theorem RunE_no_stores_iff_no_paths g os :
  (forall loaded,
     LoadConfigFromFile (configPath g) = (loaded, None) ->
     KubeconfigPaths (resolveConfig g loaded) = [] ->
     RunE g os = ReturnSwitcher [] (resolveConfig g loaded)
                   (configPath g) (stateDirectory g) (showPreview g)) /\
  (forall ss switchConfig cp sd sp,
     RunE g os = ReturnSwitcher ss switchConfig cp sd sp ->
     (ss = [] <-> KubeconfigPaths switchConfig = [])).
Proof.
  split.
  - intros loaded L E. rewrite (RunE_loaded _ _ _ _ _ _ L). cbv zeta.
    rewrite E. reflexivity.
  - intros ss switchConfig cp sd sp H.
    apply RunE_reaches_core in H. destruct H as (loaded & v & _ & _ & R & ->).
    apply rangeLoop_firstKinds in R. unfold kindsOf in R. split; intro E.
    + rewrite E in R. simpl in R. symmetry in R.
      apply (proj1 (firstKinds_nil _)) in R. apply map_eq_nil in R. exact R.
    + rewrite E in R. simpl in R. apply map_eq_nil in R. exact R.
Qed.

(** X6. Every store handed to the core carries the name filter of
    [--kubeconfig-name] and a logger whose field [store] is the kind of
    the store. *)
Theorem RunE_store_fields g os ss switchConfig cp sd sp :
  RunE g os = ReturnSwitcher ss switchConfig cp sd sp ->
  forall s, In s ss ->
    storeName s = kubeconfigName g /\
    storeLogger s = WithField "store" (GetKind s).
Proof.
  intro H. apply RunE_reaches_core in H.
  destruct H as (loaded & v & _ & _ & R & ->).
  intros s Hs.
  pose proof (rangeLoop_built _ _ _ _ _ _ _ _ R (Forall_nil _)) as F.
  rewrite Forall_forall in F. destruct (F s Hs) as [->|(vs & V & ->)].
  - split; reflexivity.
  - apply getVaultStore_inr in V.
    destruct V as (home & client & _ & _ & _ & _ & ->). split; reflexivity.
Qed.

End RunEOutcome.

(** ** What getVaultStore returns *)

Section VaultStoreOutcome.

Variable NewClient : vaultapi_Config -> error + vaultapi_Client.

(** X7. The checks of [getVaultStore] come in a fixed order, and an
    error tells which one failed: the missing address before anything
    else, then the home directory, then the missing token, then the
    client library. *)
Theorem getVaultStore_error_causes g os file paths e :
  getVaultStore NewClient g os file paths = inl e ->
  (vaultAPI_of g os file = EmptyString /\ e = errNoVaultAddress) \/
  (vaultAPI_of g os file <> EmptyString /\ UserHomeDir os = inl e) \/
  (exists home,
     vaultAPI_of g os file <> EmptyString /\ UserHomeDir os = inr home /\
     vaultToken_of os home = EmptyString /\ e = errNoVaultToken) \/
  (exists home,
     vaultAPI_of g os file <> EmptyString /\ UserHomeDir os = inr home /\
     vaultToken_of os home <> EmptyString /\
     NewClient {| Address := vaultAPI_of g os file |} = inl e).
Proof.
  intro H.
  destruct (nonEmpty (vaultAPI_of g os file)) eqn:Ha.
  2:{ rewrite (getVaultStore_no_address _ _ _ _ _ Ha) in H. injection H as <-.
      left. split; [apply nonEmpty_false; exact Ha | reflexivity]. }
  pose proof (proj1 (nonEmpty_true _) Ha) as Na.
  destruct (UserHomeDir os) as [e'|home] eqn:Hh.
  { rewrite (getVaultStore_no_home _ _ _ _ _ _ Ha Hh) in H. injection H as <-.
    right. left. auto. }
  destruct (nonEmpty (vaultToken_of os home)) eqn:Ht.
  2:{ rewrite (getVaultStore_no_token _ _ _ _ _ _ Ha Hh Ht) in H. injection H as <-.
      right. right. left. exists home.
      repeat split; try assumption. apply nonEmpty_false. exact Ht. }
  pose proof (proj1 (nonEmpty_true _) Ht) as Nt.
  destruct (NewClient {| Address := vaultAPI_of g os file |}) as [e'|client] eqn:Hc.
  - rewrite (getVaultStore_no_client _ _ _ _ _ _ _ Ha Hh Ht Hc) in H.
    injection H as <-. right. right. right. exists home. auto.
  - rewrite (getVaultStore_success _ _ _ _ _ _ _ Ha Hh Ht Hc) in H. discriminate.
Qed.

(** X8. A store returned by [getVaultStore] never has an empty token
    nor an empty address: its client is the one the library built for the
    resolved address, with the resolved token put in place of whatever
    token the library gave it; the store carries the name filter of
    [--kubeconfig-name], the paths it was given and a logger tagged
    [vault]. *)
Theorem getVaultStore_store_invariants g os file paths vs :
  getVaultStore NewClient g os file paths = inr vs ->
  clientToken (vClient vs) <> EmptyString /\
  vaultAPI_of g os file <> EmptyString /\
  (exists home client,
     UserHomeDir os = inr home /\
     NewClient {| Address := vaultAPI_of g os file |} = inr client /\
     clientToken (vClient vs) = vaultToken_of os home /\
     clientConfig (vClient vs) = clientConfig client) /\
  vKubeconfigName vs = kubeconfigName g /\
  vKubeconfigPaths vs = paths /\
  vLogger vs = WithField "store" StoreKindVault.
Proof.
  intro H. apply getVaultStore_inr in H.
  destruct H as (home & client & Ha & Hh & Ht & Hc & ->).
  apply nonEmpty_true in Ha, Ht. simpl.
  split; [exact Ht|]. split; [exact Ha|]. split; [|auto].
  exists home, client. auto.
Qed.

(** X9. Apart from what the client library reads on its own,
    [getVaultStore] looks at nothing but [VAULT_ADDR], [VAULT_TOKEN], the
    home directory and the bytes of the token file in it: in two
    surroundings that agree on these, and in which the library answers
    alike for the resolved address, the result is the same, whatever else
    the environments and files hold. *)
Theorem getVaultStore_same_surroundings NewClient' g os os' file paths :
  sameVaultSurroundings os os' ->
  NewClient {| Address := vaultAPI_of g os file |}
  = NewClient' {| Address := vaultAPI_of g os file |} ->
  getVaultStore NewClient g os file paths
  = getVaultStore NewClient' g os' file paths.
Proof.
  intros (Ea & Et & Eh & Ef) En.
  assert (A : vaultAPI_of g os' file = vaultAPI_of g os file).
  { rewrite !vaultAPI_of_precedence, Ea. reflexivity. }
  assert (T : forall home, UserHomeDir os = inr home ->
                           vaultToken_of os' home = vaultToken_of os home).
  { intros home Hh. rewrite !vaultToken_of_precedence, Et.
    specialize (Ef home Hh). unfold tokenFilePath in Ef. rewrite Ef. reflexivity. }
  destruct (nonEmpty (vaultAPI_of g os file)) eqn:Ha.
  2:{ rewrite !getVaultStore_no_address; [reflexivity | rewrite A; exact Ha | exact Ha]. }
  destruct (UserHomeDir os) as [e|home] eqn:Hh.
  { rewrite (getVaultStore_no_home _ g os _ _ e Ha Hh). symmetry.
    apply getVaultStore_no_home; [rewrite A; exact Ha | rewrite <- Eh; reflexivity]. }
  specialize (T home eq_refl).
  destruct (nonEmpty (vaultToken_of os home)) eqn:Ht.
  2:{ rewrite (getVaultStore_no_token _ g os _ _ home Ha Hh Ht). symmetry.
      apply (getVaultStore_no_token _ _ _ _ _ home);
        [rewrite A; exact Ha | rewrite <- Eh; reflexivity | rewrite T; exact Ht]. }
  destruct (NewClient {| Address := vaultAPI_of g os file |}) as [e|client] eqn:Hc.
  - rewrite (getVaultStore_no_client _ g os _ _ home e Ha Hh Ht Hc). symmetry.
    apply (getVaultStore_no_client _ _ _ _ _ home);
      [rewrite A; exact Ha | rewrite <- Eh; reflexivity | rewrite T; exact Ht
       | rewrite A, <- En; reflexivity].
  - rewrite (getVaultStore_success _ g os _ _ home client Ha Hh Ht Hc).
    rewrite <- T. symmetry.
    apply (getVaultStore_success _ _ _ _ _ home);
      [rewrite A; exact Ha | rewrite <- Eh; reflexivity | rewrite T; exact Ht
       | rewrite A, <- En; reflexivity].
Qed.

End VaultStoreOutcome.

(** ** The flags of the two commands *)

Lemma Lookup_Some fs name f :
  Lookup fs name = Some f -> In f fs /\ Name f = name.
Proof.
  intro H. apply find_some in H. destruct H as [I E].
  apply String.eqb_eq in E. auto.
Qed.

Lemma Lookup_registered fs name :
  Lookup fs name <> None <-> In name (map Name fs).
Proof.
  unfold Lookup. induction fs as [|f fs IH]; simpl.
  - split; [intro H; apply H; reflexivity | intros []].
  - destruct (String.eqb_spec (Name f) name) as [E|N].
    + split; [intros _; left; exact E | intros _; discriminate].
    + rewrite IH. split; [intro H; right; exact H | intros [E|H]; [contradiction | exact H]].
Qed.

Lemma Parse_app fs args1 args2 g :
  Parse fs (args1 ++ args2) g
  = match Parse fs args1 g with
    | inl e => inl e
    | inr g1 => Parse fs args2 g1
    end.
Proof.
  revert g. induction args1 as [|a args1 IH]; intro g; [reflexivity|].
  cbn [app Parse]. destruct (Set_ fs a g); [reflexivity | apply IH].
Qed.

(** A given flag with a value is set by the assignment through its
    pointer. *)
Lemma Set_assign fs name x g f :
  Lookup fs name = Some f ->
  Set_ fs (name, Some x) g
  = match assignFlag f x g with
    | Some g' => inr g'
    | None => inl (Errorf ("invalid argument for --" ++ name)%string)
    end.
Proof.
  intro L. unfold Set_, assignFlag. cbn [fst snd]. rewrite L.
  destruct (Value f); [reflexivity|]. destruct (ParseBool x); reflexivity.
Qed.

(** Flags that cannot change a variable leave it as it is. *)
Lemma Set_onlySetBy {T : Type} (get : Globals -> T) name fs a g g' :
  onlySetBy get name fs -> fst a <> name ->
  Set_ fs a g = inr g' -> get g' = get g.
Proof.
  intros O N H. unfold Set_ in H.
  destruct (Lookup fs (fst a)) as [f|] eqn:L; [|discriminate].
  apply Lookup_Some in L. destruct L as [I E].
  specialize (O f I). rewrite E in O. specialize (O N).
  destruct (Value f) as [p|p]; destruct (snd a) as [x|]; try discriminate.
  - injection H as <-. apply O.
  - destruct (ParseBool x); [|discriminate]. injection H as <-. apply O.
  - injection H as <-. apply O.
Qed.

Lemma Parse_onlySetBy {T : Type} (get : Globals -> T) name fs args : forall g g',
  onlySetBy get name fs ->
  Forall (fun a => fst a <> name) args ->
  Parse fs args g = inr g' -> get g' = get g.
Proof.
  induction args as [|a rest IH]; intros g g' O F H.
  - injection H as <-. reflexivity.
  - inversion F as [|? ? Fa Fr]; subst. cbn [Parse] in H.
    destruct (Set_ fs a g) as [e|g1] eqn:S; [discriminate|].
    rewrite (IH _ _ O Fr H). apply (Set_onlySetBy get name fs a _ _ O Fa S).
Qed.

Lemma rootFlags_names os : map Name (rootFlags (initialised os)) = rootFlagNames.
Proof. reflexivity. Qed.

Lemma hookFlags_names os : map Name (hookFlags (initialised os)) = hookFlagNames.
Proof. reflexivity. Qed.

Ltac only_set_by :=
  let f := fresh "f" in
  let I := fresh "I" in
  let N := fresh "N" in
  intros f I N; cbn -[String.append] in I;
  repeat (destruct I as [<-|I]);
  try (exfalso; exact I);
  cbn [Value Name] in *;
  try (intros; reflexivity);
  exfalso; apply N; reflexivity.

Lemma root_kubeconfigPath os :
  onlySetBy kubeconfigPath "kubeconfig-path" (rootFlags (initialised os)).
Proof. only_set_by. Qed.

Lemma root_storageBackend os :
  onlySetBy storageBackend "store" (rootFlags (initialised os)).
Proof. only_set_by. Qed.

Lemma root_configPath os :
  onlySetBy configPath "config-path" (rootFlags (initialised os)).
Proof. only_set_by. Qed.

Lemma root_stateDirectory os :
  onlySetBy stateDirectory "state-directory" (rootFlags (initialised os)).
Proof. only_set_by. Qed.

Lemma hook_configPath os :
  onlySetBy configPath "config-path" (hookFlags (initialised os)).
Proof. only_set_by. Qed.

Lemma hook_stateDirectory os :
  onlySetBy stateDirectory "state-directory" (hookFlags (initialised os)).
Proof. only_set_by. Qed.

Lemma hook_hookName os :
  onlySetBy hookName "hook-name" (hookFlags (initialised os)).
Proof. only_set_by. Qed.

Lemma hook_runImmediately os :
  onlySetBy runImmediately "run-immediately" (hookFlags (initialised os)).
Proof. only_set_by. Qed.

Lemma kinds_have_stores ss k :
  In k (kindsOf ss) -> isFilesystemKind k = true ->
  existsb isFilesystemStore ss = true.
Proof.
  intros I F. unfold kindsOf in I. apply in_map_iff in I.
  destruct I as (s & E & Hs). apply existsb_exists. exists s. split; [exact Hs|].
  destruct s; [reflexivity|]. simpl in E. subst k. discriminate F.
Qed.

(** X10. When neither [--kubeconfig-path] nor [--store] is given, the
    switch command appends the filesystem entry [$HOME/.kube/config] to
    the entries of the configuration file, so that a run that reaches the
    core always hands it a FilesystemStore. *)
Theorem runSwitch_default_override NewClient quote LoadConfigFromFile os args
    ss switchConfig cp sd sp :
  Forall (fun a => fst a <> "kubeconfig-path"%string) args ->
  Forall (fun a => fst a <> "store"%string) args ->
  runSwitch NewClient quote LoadConfigFromFile os args
  = ReturnSwitcher ss switchConfig cp sd sp ->
  (exists loaded,
     LoadConfigFromFile cp = (loaded, None) /\
     KubeconfigPaths switchConfig = configuredPaths loaded ++ [defaultOverride os]) /\
  existsb isFilesystemStore ss = true.
Proof.
  intros Fp Fs H. unfold runSwitch in H. cbv zeta in H.
  destruct (Parse (rootFlags (initialised os)) args (vars (initialised os)))
    as [e|g] eqn:P; [discriminate|].
  pose proof (Parse_onlySetBy kubeconfigPath _ _ args _ _ (root_kubeconfigPath os) Fp P) as Ep.
  pose proof (Parse_onlySetBy storageBackend _ _ args _ _ (root_storageBackend os) Fs P) as Es.
  change (kubeconfigPath (vars (initialised os)))
    with (Getenv os "HOME" ++ "/.kube/config")%string in Ep.
  change (storageBackend (vars (initialised os))) with StoreKindFilesystem in Es.
  pose proof H as H'. apply RunE_reaches_core in H'.
  destruct H' as (loaded & v & L & -> & R & ->).
  assert (C : cp = configPath g).
  { rewrite (RunE_loaded _ _ _ _ _ _ L) in H. cbv zeta in H.
    destruct (rangeLoop NewClient quote g os (resolveConfig g loaded) loopStart
                        (KubeconfigPaths (resolveConfig g loaded)));
      [discriminate|]. injection H as _ E _ _. symmetry. exact E. }
  assert (E : KubeconfigPaths (resolveConfig g loaded)
              = configuredPaths loaded ++ [defaultOverride os]).
  { unfold resolveConfig, appendKubeconfigPath, defaultOverride.
    rewrite Ep, Es.
    replace (nonEmpty (Getenv os "HOME" ++ "/.kube/config")%string) with true
      by (destruct (Getenv os "HOME"); reflexivity).
    destruct loaded; reflexivity. }
  split.
  - exists loaded. rewrite C. split; [exact L | exact E].
  - apply rangeLoop_firstKinds in R.
    apply (kinds_have_stores _ StoreKindFilesystem); [|reflexivity].
    rewrite R. apply firstKinds_In. rewrite E, map_app. apply in_or_app.
    right. left. reflexivity.
Qed.

(** X11. The first [init] registers the four flags [config-path],
    [state-directory], [hook-name] and [run-immediately] on the hooks
    command, the second its own seven on the root command; a flag given
    to the hooks command that is none of the four, [--kubeconfig-path]
    for one, and not the [--help] of cobra, ends the run with an error
    before the scheduler is called. *)
Theorem flags_of_the_commands os name :
  (Lookup (hookFlags (initialised os)) name <> None <-> In name hookFlagNames) /\
  (Lookup (rootFlags (initialised os)) name <> None <-> In name rootFlagNames) /\
  (~ In name hookFlagNames -> name <> "help"%string ->
   forall before value after,
     exists e, runHooks os (before ++ (name, value) :: after) = inl e).
Proof.
  split; [|split].
  - rewrite Lookup_registered, hookFlags_names. tauto.
  - rewrite Lookup_registered, rootFlags_names. tauto.
  - intros N _ before value after. unfold runHooks. cbv zeta. rewrite Parse_app.
    destruct (Parse (hookFlags (initialised os)) before (vars (initialised os)))
      as [e|g]; [exists e; reflexivity|].
    cbn [Parse]. unfold Set_. cbn [fst snd].
    destruct (Lookup (hookFlags (initialised os)) name) as [f|] eqn:L.
    + exfalso. apply N. rewrite <- hookFlags_names with (os := os).
      apply Lookup_registered. rewrite L. discriminate.
    + eexists. reflexivity.
Qed.

(** X12. The two commands share the variables behind [--config-path]
    and [--state-directory] and register them with the same defaults:
    when these flags are not given, the scheduler and the loader of the
    switch command get the same paths, [$HOME/.kube/switch-config.yaml]
    and [$HOME/.kube/switch-state]. *)
Theorem shared_flag_defaults os hookArgs rootArgs call g :
  Forall (fun a => fst a <> "config-path"%string) hookArgs ->
  Forall (fun a => fst a <> "state-directory"%string) hookArgs ->
  Forall (fun a => fst a <> "config-path"%string) rootArgs ->
  Forall (fun a => fst a <> "state-directory"%string) rootArgs ->
  runHooks os hookArgs = inr call ->
  Parse (rootFlags (initialised os)) rootArgs (vars (initialised os)) = inr g ->
  hConfigPath call = (Getenv os "HOME" ++ "/.kube/switch-config.yaml")%string /\
  hStateDirectory call = (Getenv os "HOME" ++ "/.kube/switch-state")%string /\
  configPath g = hConfigPath call /\
  stateDirectory g = hStateDirectory call.
Proof.
  intros Hc Hs Rc Rs H P. unfold runHooks in H. cbv zeta in H.
  destruct (Parse (hookFlags (initialised os)) hookArgs (vars (initialised os)))
    as [e|gh] eqn:Ph; [discriminate|].
  injection H as <-. cbn [hookCmd_RunE hConfigPath hStateDirectory].
  rewrite (Parse_onlySetBy configPath _ _ _ _ _ (hook_configPath os) Hc Ph).
  rewrite (Parse_onlySetBy stateDirectory _ _ _ _ _ (hook_stateDirectory os) Hs Ph).
  rewrite (Parse_onlySetBy configPath _ _ _ _ _ (root_configPath os) Rc P).
  rewrite (Parse_onlySetBy stateDirectory _ _ _ _ _ (root_stateDirectory os) Rs P).
  repeat split.
Qed.

(** X13. A value given last on the command line of the hooks command is
    the one the scheduler gets: the hook name, which also becomes the
    field [hook] of the logger, and the run-immediately switch, which a
    false value turns off. The other of the two is left as the earlier
    arguments set it. *)
Theorem runHooks_explicit_flags os args g :
  Parse (hookFlags (initialised os)) args (vars (initialised os)) = inr g ->
  (forall x,
     exists call,
       runHooks os (args ++ [("hook-name"%string, Some x)]) = inr call /\
       hHookName call = x /\
       hLog call = WithField "hook" x /\
       hRunImmediately call = runImmediately g) /\
  (forall x b,
     ParseBool x = Some b ->
     exists call,
       runHooks os (args ++ [("run-immediately"%string, Some x)]) = inr call /\
       hRunImmediately call = b /\
       hHookName call = hookName g).
Proof.
  intro P. split.
  - intro x. unfold runHooks. cbv zeta. rewrite Parse_app, P. cbn [Parse].
    rewrite (Set_assign _ _ _ _ (mkFlag "hook-name" (stringValue p_hookName)
                                   "the name of the hook that should be run."));
      [|reflexivity].
    eexists. split; [reflexivity|]. repeat split.
  - intros x b B. unfold runHooks. cbv zeta. rewrite Parse_app, P. cbn [Parse].
    rewrite (Set_assign _ _ _ _
               (mkFlag "run-immediately" (boolValue p_runImmediately)
                  "run hooks right away. Do not respect the hooks execution configuration."));
      [|reflexivity].
    unfold assignFlag. cbn [Value]. rewrite B.
    eexists. split; [reflexivity|]. repeat split.
Qed.

(** ** The further properties on concrete runs *)

Lemma RunE_reaches_core_iff_witness :
  exists ss switchConfig cp sd sp,
    rootCommand_RunE Example.NewClient Example.quote (Example.load Example.mixed)
      (Example.globals EmptyString) Example.osTokenFile
    = ReturnSwitcher ss switchConfig cp sd sp.
Proof.
  apply (proj2 (RunE_reaches_core_iff Example.NewClient Example.quote
                  (Example.load Example.mixed) (Example.globals EmptyString)
                  Example.osTokenFile)).
  exists (Some Example.mixed). split; [reflexivity|]. split; [reflexivity|].
  intros _. exists Example.mixedVaultStore. reflexivity.
Defined.

Lemma RunE_error_causes_witness :
  (exists loaded cause,
     Example.load Example.fsThenS3 (configPath (Example.globals EmptyString))
     = (loaded, Some cause) /\
     errUnknownStore Example.quote "s3"
     = Errorf ("failed to read switch config file: " ++ Error cause)%string) \/
  (exists loaded p,
     Example.load Example.fsThenS3 (configPath (Example.globals EmptyString))
     = (loaded, None) /\
     In p (KubeconfigPaths (resolveConfig (Example.globals EmptyString) loaded)) /\
     unknownEntry p = true /\
     errUnknownStore Example.quote "s3" = errUnknownStore Example.quote (Store p)) \/
  (exists loaded,
     Example.load Example.fsThenS3 (configPath (Example.globals EmptyString))
     = (loaded, None) /\
     existsb vaultEntry
       (KubeconfigPaths (resolveConfig (Example.globals EmptyString) loaded)) = true /\
     getVaultStore Example.NewClient (Example.globals EmptyString) Example.osTokenFile
       (VaultAPIAddress (resolveConfig (Example.globals EmptyString) loaded))
       (KubeconfigPaths (resolveConfig (Example.globals EmptyString) loaded))
     = inl (errUnknownStore Example.quote "s3")).
Proof.
  exact (RunE_error_causes Example.NewClient Example.quote
           (Example.load Example.fsThenS3) (Example.globals EmptyString)
           Example.osTokenFile (errUnknownStore Example.quote "s3") eq_refl).
Defined.

Lemma RunE_without_vault_entry_witness :
  rootCommand_RunE Example.NewClient Example.quote (Example.load Example.onlyFs)
    (Example.globals EmptyString) Example.osTokenFile
  = rootCommand_RunE Scenario.NewClientDown Example.quote (Example.load Example.onlyFs)
      (Example.globals EmptyString) Example.osBare.
Proof.
  apply (RunE_without_vault_entry Example.NewClient Example.quote
           (Example.load Example.onlyFs) (Example.globals EmptyString)
           Example.osTokenFile (Some Example.onlyFs)); reflexivity.
Defined.

Lemma RunE_calls_getVaultStore_once_witness :
  rootCommand_RunE_calls Example.NewClient Example.quote (Example.load Example.mixed)
    (Example.globals EmptyString) Example.osTokenFile = 1 /\
  rootCommand_RunE_calls Example.NewClient Example.quote (Example.load Example.onlyFs)
    (Example.globals EmptyString) Example.osTokenFile = 0.
Proof.
  destruct (RunE_calls_getVaultStore_once Example.NewClient Example.quote
              (Example.load Example.mixed) (Example.globals EmptyString)
              Example.osTokenFile) as (_ & _ & _ & One).
  destruct (RunE_calls_getVaultStore_once Example.NewClient Example.quote
              (Example.load Example.onlyFs) (Example.globals EmptyString)
              Example.osTokenFile) as (_ & _ & Zero & _).
  split.
  - apply (One Example.mixedStores Example.mixed
             "/home/op/.kube/switch-config.yaml" "/home/op/.kube/switch-state" true);
      reflexivity.
  - apply (Zero (Some Example.onlyFs)); reflexivity.
Defined.

Lemma RunE_no_stores_iff_no_paths_witness :
  rootCommand_RunE Example.NewClient Example.quote Scenario.loadNothing
    (Example.globals EmptyString) Example.osBare
  = ReturnSwitcher [] emptyConfig
      "/home/op/.kube/switch-config.yaml" "/home/op/.kube/switch-state" true /\
  (Example.mixedStores = [] <-> KubeconfigPaths Example.mixed = []).
Proof.
  destruct (RunE_no_stores_iff_no_paths Example.NewClient Example.quote
              Scenario.loadNothing (Example.globals EmptyString) Example.osBare)
    as [Empty _].
  destruct (RunE_no_stores_iff_no_paths Example.NewClient Example.quote
              (Example.load Example.mixed) (Example.globals EmptyString)
              Example.osTokenFile) as [_ Iff].
  split.
  - apply (Empty None); reflexivity.
  - apply (Iff Example.mixedStores Example.mixed
             "/home/op/.kube/switch-config.yaml" "/home/op/.kube/switch-state" true).
    reflexivity.
Defined.

Lemma RunE_store_fields_witness :
  storeName (IsVaultStore Example.mixedVaultStore) = "config"%string /\
  storeLogger (IsVaultStore Example.mixedVaultStore) = [("store", "vault")]%string.
Proof.
  apply (RunE_store_fields Example.NewClient Example.quote
           (Example.load Example.mixed) (Example.globals EmptyString)
           Example.osTokenFile Example.mixedStores Example.mixed _ _ _ eq_refl
           (IsVaultStore Example.mixedVaultStore)).
  left. reflexivity.
Defined.

Lemma getVaultStore_error_causes_witness :
  (vaultAPI_of (Example.globals EmptyString) Example.osBare "https://vault.file"
   = EmptyString /\ errNoVaultToken = errNoVaultAddress) \/
  (vaultAPI_of (Example.globals EmptyString) Example.osBare "https://vault.file"
   <> EmptyString /\ UserHomeDir Example.osBare = inl errNoVaultToken) \/
  (exists home,
     vaultAPI_of (Example.globals EmptyString) Example.osBare "https://vault.file"
     <> EmptyString /\
     UserHomeDir Example.osBare = inr home /\
     vaultToken_of Example.osBare home = EmptyString /\
     errNoVaultToken = errNoVaultToken) \/
  (exists home,
     vaultAPI_of (Example.globals EmptyString) Example.osBare "https://vault.file"
     <> EmptyString /\
     UserHomeDir Example.osBare = inr home /\
     vaultToken_of Example.osBare home <> EmptyString /\
     Example.NewClient
       {| Address := vaultAPI_of (Example.globals EmptyString) Example.osBare
                                 "https://vault.file" |}
     = inl errNoVaultToken).
Proof.
  exact (getVaultStore_error_causes Example.NewClient (Example.globals EmptyString)
           Example.osBare "https://vault.file" [] errNoVaultToken eq_refl).
Defined.

Lemma getVaultStore_store_invariants_witness :
  clientToken (vClient Example.mixedVaultStore) <> EmptyString /\
  vKubeconfigName Example.mixedVaultStore = "config"%string.
Proof.
  destruct (getVaultStore_store_invariants Example.NewClient
              (Example.globals EmptyString) Example.osTokenFile
              "https://vault.file" (KubeconfigPaths Example.mixed)
              Example.mixedVaultStore eq_refl) as (T & _ & _ & N & _).
  split; [exact T | exact N].
Defined.

Lemma getVaultStore_same_surroundings_witness :
  getVaultStore Example.NewClient (Example.globals EmptyString) Example.osTokenFile
                "https://vault.file" []
  = getVaultStore Example.NewClient (Example.globals EmptyString) Scenario.osOther
                  "https://vault.file" [].
Proof.
  apply getVaultStore_same_surroundings; [|reflexivity].
  repeat split. intros home H. injection H as <-. reflexivity.
Defined.

Lemma runSwitch_default_override_witness :
  (exists loaded,
     Example.load Example.onlyFs "/home/op/.kube/switch-config.yaml" = (loaded, None) /\
     KubeconfigPaths Scenario.defaultConfig
     = configuredPaths loaded ++ [defaultOverride Scenario.osBusy]) /\
  existsb isFilesystemStore Scenario.defaultStores = true.
Proof.
  apply (runSwitch_default_override Example.NewClient Example.quote
           (Example.load Example.onlyFs) Scenario.osBusy Scenario.nameArgs
           Scenario.defaultStores Scenario.defaultConfig
           "/home/op/.kube/switch-config.yaml" "/home/op/.kube/switch-state" true).
  - repeat constructor; discriminate.
  - repeat constructor; discriminate.
  - reflexivity.
Defined.

Lemma flags_of_the_commands_witness :
  exists e,
    runHooks Scenario.osBusy
      (Scenario.hookArgs ++ ("kubeconfig-path"%string, Some "/tmp/config"%string) :: [])
    = inl e.
Proof.
  destruct (flags_of_the_commands Scenario.osBusy "kubeconfig-path") as (_ & _ & R).
  apply R; [|discriminate]. intros [E|[E|[E|[E|[]]]]]; discriminate E.
Defined.

Lemma shared_flag_defaults_witness :
  hConfigPath (hookCmd_RunE (p_hookName "refresh" (vars (initialised Scenario.osBusy))))
  = "/home/op/.kube/switch-config.yaml"%string /\
  hStateDirectory (hookCmd_RunE (p_hookName "refresh" (vars (initialised Scenario.osBusy))))
  = "/home/op/.kube/switch-state"%string.
Proof.
  destruct (shared_flag_defaults Scenario.osBusy Scenario.hookArgs Scenario.previewArgs
              (hookCmd_RunE (p_hookName "refresh" (vars (initialised Scenario.osBusy))))
              (p_showPreview false (vars (initialised Scenario.osBusy))))
    as (C & S & _ & _).
  - repeat constructor; discriminate.
  - repeat constructor; discriminate.
  - repeat constructor; discriminate.
  - repeat constructor; discriminate.
  - reflexivity.
  - reflexivity.
  - split; [exact C | exact S].
Defined.

Lemma runHooks_explicit_flags_witness :
  exists call,
    runHooks Scenario.osBusy
      (Scenario.hookArgs ++ [("run-immediately"%string, Some "false"%string)])
    = inr call /\
    hRunImmediately call = false /\
    hHookName call = "refresh"%string.
Proof.
  destruct (runHooks_explicit_flags Scenario.osBusy Scenario.hookArgs
              (p_hookName "refresh" (vars (initialised Scenario.osBusy))) eq_refl)
    as [_ B].
  apply (B "false"%string false). reflexivity.
Defined.
